(** * CohortCortex: the rule-based scoring engine of [application.py]

    A shallow embedding of [class Patient] and [class Engine] and the
    properties of the scoring run [Engine.sort_patients].

    Conventions of the embedding.
    - Python [float] scores are modelled by exact rationals ([Qc], whose
      equality is Leibniz equality).  Every score is built from the literals
      [0.0] and [1.0], from quotients [int / int], from the weights of the
      rule document, and from [+] and [*]; the tests [== 0.0] and [> 0.0]
      are the exact ones.
    - Python [str] is [string] (ASCII text); [lower], [strip] and [in] are
      written out below.
    - A raised exception is a value [Raise e] of [result]; the code has no
      [try], so an exception leaves [sort_patients] at once.
    - The engine object, the open exclusion-log file and the score CSV are
      one explicit state, threaded through the run. *)

From stdpp Require Import base numbers strings list gmap sorting.
From Stdlib Require Import QArith Qcanon Ascii.
From Stdlib Require String.

Local Open Scope Z_scope.

(** ** Exceptions *)

Inductive exception :=
| KeyError (key : string)   (* [rule["gender"]] on a rule without that key *)
| LiteralError              (* [ast.literal_eval] / [set] rejected the cell *)
| OSError.                  (* a file operation failed *)

Inductive result (A : Type) :=
| Ok (a : A)
| Raise (e : exception).
Arguments Ok {A} a.
Arguments Raise {A} e.

#[global] Instance result_ret : MRet result := λ A a, Ok a.
#[global] Instance result_bind : MBind result := λ A B f m,
  match m with Ok a => f a | Raise e => Raise e end.

(** [d[key]] on a dict that may lack [key]. *)
Definition subscript {A} (key : string) (field : option A) : result A :=
  match field with Some a => Ok a | None => Raise (KeyError key) end.

(** ** Python strings *)

(** [c.isspace()] for an ASCII character: tab, LF, VT, FF, CR, the four
    separators 0x1c-0x1f and the blank. *)
Definition isspace (c : ascii) : bool :=
  let n := nat_of_ascii c in
  ((9 <=? n)%nat && (n <=? 13)%nat) || ((28 <=? n)%nat && (n <=? 32)%nat).

Definition lower_ascii (c : ascii) : ascii :=
  let n := nat_of_ascii c in
  if ((65 <=? n)%nat && (n <=? 90)%nat) then ascii_of_nat (n + 32) else c.

(** [s.lower()] *)
Fixpoint lower (s : string) : string :=
  match s with
  | EmptyString => EmptyString
  | String c s' => String (lower_ascii c) (lower s')
  end.

Fixpoint lstrip (s : string) : string :=
  match s with
  | EmptyString => EmptyString
  | String c s' => if isspace c then lstrip s' else s
  end.

Fixpoint rstrip (s : string) : string :=
  match s with
  | EmptyString => EmptyString
  | String c s' =>
      match rstrip s' with
      | EmptyString => if isspace c then EmptyString else String c EmptyString
      | r => String c r
      end
  end.

(** [s.strip()] *)
Definition strip (s : string) : string := rstrip (lstrip s).

(** [needle in hay] on strings: [needle] occurs in [hay] as a substring. *)
Fixpoint contains (needle hay : string) : bool :=
  String.prefix needle hay ||
  match hay with
  | EmptyString => false
  | String _ hay' => contains needle hay'
  end.

(** ** Cells of the patient table

    A cell that the engine iterates over is a Python object: the [str] that
    [pd.read_csv] delivers for a text column, or a [list] of [str] when the
    row was built in memory.  [for x in cell] yields the one-character
    strings of a [str] and the entries of a [list]. *)

Inductive cell :=
| PyStr (s : string)
| PyList (l : list string).

Definition py_iter (c : cell) : list string :=
  match c with
  | PyStr s => (λ ch, String ch EmptyString) <$> String.list_ascii_of_string s
  | PyList l => l
  end.

(** ** A list display of plain quoted strings

    [ast.literal_eval] is library code; the engine is parametric in it (see
    [Section Engine]).  [list_literal] is the instance used to run the engine
    on concrete cells: it reads a display such as ['4019', "2724"] (items
    in single or double quotes without escapes, blanks between tokens, an
    optional trailing comma) and reports every other text as [LiteralError]. *)

Inductive lit_state :=
| LitOpen                       (* before the opening bracket *)
| LitItem                       (* an item or the closing bracket is due *)
| LitChars (quote : ascii)      (* inside a quoted item *)
| LitSep                        (* a comma or the closing bracket is due *)
| LitDone.                      (* after the closing bracket *)

Definition is_blank (c : ascii) : bool :=
  bool_decide (c = " "%char) || bool_decide (c = "009"%char).

Fixpoint lit_run (st : lit_state) (done : list string) (cur : string)
    (s : string) : result (list string) :=
  match s with
  | EmptyString =>
      match st with LitDone => Ok (reverse done) | _ => Raise LiteralError end
  | String c s' =>
      match st with
      | LitOpen =>
          if bool_decide (c = "["%char) then lit_run LitItem done cur s'
          else Raise LiteralError
      | LitItem =>
          if is_blank c then lit_run st done cur s'
          else if bool_decide (c = "'"%char) || bool_decide (c = "034"%char)
          then lit_run (LitChars c) done EmptyString s'
          else if bool_decide (c = "]"%char) then lit_run LitDone done cur s'
          else Raise LiteralError
      | LitChars quote =>
          if bool_decide (c = quote)
          then lit_run LitSep (String.rev cur :: done) EmptyString s'
          else if bool_decide (c = "\"%char) || bool_decide (c = "010"%char)
          then Raise LiteralError
          else lit_run st done (String c cur) s'
      | LitSep =>
          if is_blank c then lit_run st done cur s'
          else if bool_decide (c = ","%char) then lit_run LitItem done cur s'
          else if bool_decide (c = "]"%char) then lit_run LitDone done cur s'
          else Raise LiteralError
      | LitDone =>
          if is_blank c then lit_run st done cur s' else Raise LiteralError
      end
  end.

Definition list_literal (s : string) : result (list string) :=
  lit_run LitOpen [] EmptyString s.

(** ** The data model *)

(** A row of the patient table ([patient.patient_data], a [pd.Series]). *)
Module PatientData.
Record t := mk {
  subject_id : Z;
  first_name : string;
  last_name : string;
  age : Z;
  gender : string;
  prescriptions : cell;
  prescriptions_poe : cell;
  prescriptions_generic : cell;
  icd9_codes : string;
}.
End PatientData.

(** [class Patient] *)
Record Patient := mkPatient {
  patient_index : nat;
  patient_data : PatientData.t;
  score : Qc;
}.

(** [Patient(patient_index, patient_data)] *)
Definition Patient_init (patient_index : nat) (patient_data : PatientData.t) : Patient :=
  mkPatient patient_index patient_data 0%Qc.

Definition set_score (patient : Patient) (score : Qc) : Patient :=
  mkPatient (patient_index patient) (patient_data patient) score.

(** A rule of the rule document: the JSON object with its ["type"] and the
    keys the evaluators read; an absent key is [None]. *)
Module Rule.
Record t := mk {
  type : string;
  min : option Z;
  max : option Z;
  gender : option Z;
  medications : option (list string);
  icd9_codes : option (list string);
}.
End Rule.

Record InclusionCriterium := mkInclusion {
  in_rule : Rule.t;
  weight : Qc;
}.

Record ExclusionCriterium := mkExclusion {
  ex_rule : Rule.t;
}.

Record Rules := mkRules {
  inclusion_criterium : list InclusionCriterium;
  exclusion_criterium : list ExclusionCriterium;
}.

(** A line of [exclusion_reasons.txt]: the values that the f-string of the
    violated rule interpolates. *)
Inductive ExclusionReason :=
| ExcludedAge (index : nat) (age : Z) (min max : option Z)
| ExcludedGender (index : nat) (gender : string) (needed : string)
| ExcludedMedications (index : nat) (prescriptions : cell) (medications : list string)
| ExcludedConditions (index : nat) (icd9_codes : string) (study_codes : list string).

(** A row of the score log. *)
Module ScoreEntry.
Record t := mk {
  patient_index : nat;
  subject_id : Z;
  first_name : string;
  last_name : string;
  score : Qc;
}.
End ScoreEntry.

(** [class Engine]: the object's fields, with the two log files it owns.
    [exclusion_log_file] holds the lines written through the open handle
    ([None]: no file); [scores_log] is the content of [patient_scores.csv]
    once [to_csv] has written it. *)
Record Engine := mkEngine {
  rules : Rules;
  log_folder : option string;
  exclusion_log_file : option (list ExclusionReason);
  patient_scores : list ScoreEntry.t;
  scores_log : option (list ScoreEntry.t);
}.

(** [if self.log_folder:] *)
Definition truthy (log_folder : option string) : bool :=
  match log_folder with
  | Some s => negb (String.eqb s EmptyString)
  | None => false
  end.

(** [Engine(rules, patient_csv_fp, log_folder)] *)
Definition Engine_init (rules : Rules) (log_folder : option string) : Engine :=
  if truthy log_folder
  then mkEngine rules log_folder (Some []) [] None
  else mkEngine rules log_folder None [] None.

(** What the environment does to the two file operations that end a run. *)
Record Disk := mkDisk {
  to_csv_fails : bool;
  close_fails : bool;
}.

Definition Qc_of_nat (n : nat) : Qc := Qc_of_Z (Z.of_nat n).

(** ** [class Engine]: the evaluators and the scoring run *)

Section Engine.

(** [ast.literal_eval] followed by [set]: the strings of the display that a
    cell encodes, or the exception raised on a cell that is no display of
    hashable items.  (Items that are not strings never equal a study code
    and are left out.) *)
Variable literal_eval : string → result (list string).

(** [Engine.age] *)
Definition age (patient : Patient) (min max : option Z) : Qc :=
  let age := PatientData.age (patient_data patient) in
  if match min with Some min => bool_decide (age < min) | None => false end
  then 0%Qc
  else if match max with Some max => bool_decide (age > max) | None => false end
  then 0%Qc
  else 1%Qc.

(** [Engine.gender] *)
Definition gender (patient : Patient) (gender : Z) : Qc :=
  if bool_decide (gender = 0) then
    if String.eqb (PatientData.gender (patient_data patient)) "M" then 1%Qc else 0%Qc
  else if bool_decide (gender = 1) then
    if String.eqb (PatientData.gender (patient_data patient)) "F" then 1%Qc else 0%Qc
  else if bool_decide (gender = 2) then 1%Qc
  else 0%Qc.

Definition columns : list (PatientData.t → cell) :=
  [PatientData.prescriptions; PatientData.prescriptions_poe; PatientData.prescriptions_generic].

(** The three nested loops of [Engine.medications], from the counter
    [matches] on. *)
Definition count_matches (patient : Patient) (medications : list string)
    (matches : nat) : nat :=
  foldl (λ matches med,
    let med := strip (lower med) in
    foldl (λ matches col,
      foldl (λ matches patient_med,
        if contains med (strip (lower patient_med)) then S matches else matches)
        matches (py_iter (col (patient_data patient))))
      matches columns)
    matches medications.

(** [Engine.medications] *)
Definition medications (patient : Patient) (medications : list string) : Qc :=
  let matches := count_matches patient medications 0 in
  let total := length medications in
  if bool_decide (0 < total)%nat
  then (Qc_of_nat matches / Qc_of_nat total)%Qc
  else 0%Qc.

(** [Engine.preexisting_conditions] *)
Definition preexisting_conditions (patient : Patient)
    (study_icd9_codes : list string) : result Qc :=
  let patient_icd9_codes := PatientData.icd9_codes (patient_data patient) in
  let patient_icd9_codes := lower (strip patient_icd9_codes) in
  let study_icd9_codes := (λ x, lower (strip x)) <$> study_icd9_codes in
  patient_icd9_codes ← literal_eval patient_icd9_codes;
  let patient_icd9_codes : gset string := list_to_set patient_icd9_codes in
  let study_icd9_codes : gset string := list_to_set study_icd9_codes in
  let set_diff := patient_icd9_codes ∩ study_icd9_codes in
  mret (if bool_decide (0 < size study_icd9_codes)%nat
        then (Qc_of_nat (size set_diff) / Qc_of_nat (size study_icd9_codes))%Qc
        else 0%Qc).

(** The body of the inclusion loop: one [inclusion_criterium], from the
    running [score]. *)
Definition inclusion_step (patient : Patient) (c : InclusionCriterium)
    (score : Qc) : result Qc :=
  let rule := in_rule c in
  let weight := weight c in
  if String.eqb (Rule.type rule) "age" then
    mret (score + age patient (Rule.min rule) (Rule.max rule) * weight)%Qc
  else if String.eqb (Rule.type rule) "gender" then
    g ← subscript "gender" (Rule.gender rule);
    mret (score + gender patient g * weight)%Qc
  else if String.eqb (Rule.type rule) "medications" then
    ms ← subscript "medications" (Rule.medications rule);
    mret (score + medications patient ms * weight)%Qc
  else if String.eqb (Rule.type rule) "preexisting_conditions" then
    cs ← subscript "icd9_codes" (Rule.icd9_codes rule);
    v ← preexisting_conditions patient cs;
    mret (score + v * weight)%Qc
  else mret score.

(** [for inclusion_criterium in self.rules["inclusion_criterium"]: ...] *)
Fixpoint inclusion_loop (patient : Patient) (cs : list InclusionCriterium)
    (score : Qc) : result Qc :=
  match cs with
  | [] => mret score
  | c :: cs' =>
      score ← inclusion_step patient c score;
      inclusion_loop patient cs' score
  end.

(** The body of the exclusion loop: [Some reason] when the rule is violated
    (the branch that zeroes the score, builds [reason] and breaks). *)
Definition exclusion_step (patient : Patient) (c : ExclusionCriterium)
    : result (option ExclusionReason) :=
  let rule := ex_rule c in
  let data := patient_data patient in
  if String.eqb (Rule.type rule) "age" then
    if bool_decide (age patient (Rule.min rule) (Rule.max rule) = 0%Qc)
    then mret (Some (ExcludedAge (patient_index patient) (PatientData.age data)
                       (Rule.min rule) (Rule.max rule)))
    else mret None
  else if String.eqb (Rule.type rule) "gender" then
    g ← subscript "gender" (Rule.gender rule);
    if bool_decide (gender patient g = 0%Qc)
    then mret (Some (ExcludedGender (patient_index patient) (PatientData.gender data)
                       (if bool_decide (g = 0) then "M" else "F")))
    else mret None
  else if String.eqb (Rule.type rule) "medications" then
    ms ← subscript "medications" (Rule.medications rule);
    if bool_decide (0 < medications patient ms)%Qc
    then mret (Some (ExcludedMedications (patient_index patient)
                       (PatientData.prescriptions data) ms))
    else mret None
  else if String.eqb (Rule.type rule) "preexisting_conditions" then
    cs ← subscript "icd9_codes" (Rule.icd9_codes rule);
    v ← preexisting_conditions patient cs;
    if bool_decide (0 < v)%Qc
    then mret (Some (ExcludedConditions (patient_index patient)
                       (PatientData.icd9_codes data) cs))
    else mret None
  else mret None.

(** [for exclusion_criterium in self.rules["exclusion_criterium"]: ...],
    left by [break] at the first violated rule. *)
Fixpoint exclusion_loop (patient : Patient) (cs : list ExclusionCriterium)
    : result (option ExclusionReason) :=
  match cs with
  | [] => mret None
  | c :: cs' =>
      verdict ← exclusion_step patient c;
      match verdict with
      | Some reason => mret (Some reason)
      | None => exclusion_loop patient cs'
      end
  end.

(** [self.exclusion_log_file.write(reason + '\n')], under
    [if self.exclusion_log_file:]. *)
Definition write_reason (self : Engine) (reason : ExclusionReason) : Engine :=
  mkEngine (rules self) (log_folder self)
    ((λ lines, lines ++ [reason]) <$> exclusion_log_file self)
    (patient_scores self) (scores_log self).

(** [self.patient_scores.append({...})] *)
Definition append_score (self : Engine) (patient : Patient) : Engine :=
  mkEngine (rules self) (log_folder self) (exclusion_log_file self)
    (patient_scores self ++
       [ScoreEntry.mk (patient_index patient)
          (PatientData.subject_id (patient_data patient))
          (PatientData.first_name (patient_data patient))
          (PatientData.last_name (patient_data patient))
          (score patient)])
    (scores_log self).

(** The body of [for patient in patients:]. An exception leaves the engine
    as it was when it was raised. *)
Definition score_patient (self : Engine) (patient : Patient)
    : Engine * result Patient :=
  match inclusion_loop patient (inclusion_criterium (rules self)) 0%Qc with
  | Raise e => (self, Raise e)
  | Ok score =>
      let patient := set_score patient score in
      match exclusion_loop patient (exclusion_criterium (rules self)) with
      | Raise e => (self, Raise e)
      | Ok (Some reason) =>
          let patient := set_score patient 0%Qc in
          let self := write_reason self reason in
          (append_score self patient, Ok patient)
      | Ok None => (append_score self patient, Ok patient)
      end
  end.

Fixpoint score_patients (self : Engine) (patients : list Patient)
    : Engine * result (list Patient) :=
  match patients with
  | [] => (self, Ok [])
  | patient :: rest =>
      match score_patient self patient with
      | (self, Raise e) => (self, Raise e)
      | (self, Ok patient) =>
          match score_patients self rest with
          | (self, Raise e) => (self, Raise e)
          | (self, Ok rest) => (self, Ok (patient :: rest))
          end
      end
  end.

(** [patients.sort(key=lambda x: x.score, reverse=True)]: Python's sort is
    stable, also under [reverse=True].  [x] comes from in front of [l] in
    the original order, so it goes before the entries it ties with. *)
Fixpoint insert_by_score (x : Patient) (l : list Patient) : list Patient :=
  match l with
  | [] => [x]
  | y :: l' =>
      if bool_decide (score x < score y)%Qc
      then y :: insert_by_score x l'
      else x :: l
  end.

Definition sort_by_score (patients : list Patient) : list Patient :=
  foldr insert_by_score [] patients.

(** [for index, row in patient_data.iterrows(): patients.append(Patient(index, row))] *)
Definition load_patients (patient_data : list PatientData.t) : list Patient :=
  imap Patient_init patient_data.

(** [scores_df.to_csv(self.scores_log_fp, index=False)] *)
Definition to_csv (self : Engine) : Engine :=
  mkEngine (rules self) (log_folder self) (exclusion_log_file self)
    (patient_scores self) (Some (patient_scores self)).

(** [Engine.sort_patients]; [patient_data] is the table that [pd.read_csv]
    returns for [self.patient_csv_fp]. *)
Definition sort_patients (self : Engine) (patient_data : list PatientData.t)
    (disk : Disk) : Engine * result (list Patient) :=
  let patients := load_patients patient_data in
  match score_patients self patients with
  | (self, Raise e) => (self, Raise e)
  | (self, Ok patients) =>
      let patients := sort_by_score patients in
      if truthy (log_folder self) && to_csv_fails disk then (self, Raise OSError)
      else
        let self := if truthy (log_folder self) then to_csv self else self in
        if bool_decide (is_Some (exclusion_log_file self)) && close_fails disk
        then (self, Raise OSError)
        else (self, Ok patients)
  end.

End Engine.

(** ** The vocabulary of the specification *)

(** The rule types that have an evaluator. *)
Definition supported_types : list string :=
  ["age"; "gender"; "medications"; "preexisting_conditions"].

Definition supported (rule : Rule.t) : bool :=
  bool_decide (Rule.type rule ∈ supported_types).

(** The value of the rule's evaluator on the patient; a rule without an
    evaluator counts as [0.0]. *)
Definition evaluator_value (literal_eval : string → result (list string))
    (patient : Patient) (rule : Rule.t) : result Qc :=
  if String.eqb (Rule.type rule) "age" then
    mret (age patient (Rule.min rule) (Rule.max rule))
  else if String.eqb (Rule.type rule) "gender" then
    g ← subscript "gender" (Rule.gender rule); mret (gender patient g)
  else if String.eqb (Rule.type rule) "medications" then
    ms ← subscript "medications" (Rule.medications rule);
    mret (medications patient ms)
  else if String.eqb (Rule.type rule) "preexisting_conditions" then
    cs ← subscript "icd9_codes" (Rule.icd9_codes rule);
    preexisting_conditions literal_eval patient cs
  else mret 0%Qc.

(** The terms (evaluator value) * (weight), one per inclusion entry, in
    document order. *)
Fixpoint inclusion_terms (literal_eval : string → result (list string))
    (patient : Patient) (cs : list InclusionCriterium) : result (list Qc) :=
  match cs with
  | [] => mret []
  | c :: cs' =>
      v ← evaluator_value literal_eval patient (in_rule c);
      terms ← inclusion_terms literal_eval patient cs';
      mret ((v * weight c)%Qc :: terms)
  end.

(** Their sum from [0.0], added up from the left. *)
Definition weighted_sum (literal_eval : string → result (list string))
    (patient : Patient) (cs : list InclusionCriterium) : result Qc :=
  terms ← inclusion_terms literal_eval patient cs;
  mret (foldl Qcplus 0%Qc terms).

(** An exclusion rule is violated: an age or gender rule when its evaluator
    returns [0.0], a medications or preexisting-conditions rule when its
    evaluator returns more than [0.0]; a rule without an evaluator never. *)
Definition violated (literal_eval : string → result (list string))
    (patient : Patient) (rule : Rule.t) : result bool :=
  v ← evaluator_value literal_eval patient rule;
  mret (if bool_decide (Rule.type rule ∈ ["age"; "gender"])
        then bool_decide (v = 0%Qc)
        else if bool_decide (Rule.type rule ∈ ["medications"; "preexisting_conditions"])
        then bool_decide (0 < v)%Qc
        else false).

(** The rule type that a line of the exclusion log names. *)
Definition reason_type (reason : ExclusionReason) : string :=
  match reason with
  | ExcludedAge _ _ _ _ => "age"
  | ExcludedGender _ _ _ => "gender"
  | ExcludedMedications _ _ _ => "medications"
  | ExcludedConditions _ _ _ => "preexisting_conditions"
  end.

Definition reason_index (reason : ExclusionReason) : nat :=
  match reason with
  | ExcludedAge i _ _ _ | ExcludedGender i _ _
  | ExcludedMedications i _ _ | ExcludedConditions i _ _ => i
  end.

(** The score-log entry of a scored patient. *)
Definition score_entry (patient : Patient) : ScoreEntry.t :=
  ScoreEntry.mk (patient_index patient)
    (PatientData.subject_id (patient_data patient))
    (PatientData.first_name (patient_data patient))
    (PatientData.last_name (patient_data patient))
    (score patient).

(** The occurrences that the medications evaluator is documented to count:
    the entries of the three medication lists that contain the target, both
    sides lowercased and trimmed. *)
Definition matching_entries (med : string) (entries : list string) : nat :=
  length (filter (λ entry, contains (strip (lower med)) (strip (lower entry)) = true) entries).

(** The preexisting-conditions score as the specification words it: the
    patient's codes, each lowercased and trimmed, against the study codes,
    each lowercased and trimmed. *)
Definition preexisting_conditions_spec
    (literal_eval : string → result (list string))
    (patient : Patient) (study_icd9_codes : list string) : result Qc :=
  codes ← literal_eval (PatientData.icd9_codes (patient_data patient));
  let patient_codes : gset string := list_to_set ((λ x, lower (strip x)) <$> codes) in
  let study_codes : gset string := list_to_set ((λ x, lower (strip x)) <$> study_icd9_codes) in
  mret (if bool_decide (0 < size study_codes)%nat
        then (Qc_of_nat (size (patient_codes ∩ study_codes)) / Qc_of_nat (size study_codes))%Qc
        else 0%Qc).

(** The rule document without the rules that have no evaluator. *)
Definition drop_unsupported (doc : Rules) : Rules :=
  mkRules (filter (λ c, supported (in_rule c) = true) (inclusion_criterium doc))
          (filter (λ c, supported (ex_rule c) = true) (exclusion_criterium doc)).

Definition with_rules (self : Engine) (doc : Rules) : Engine :=
  mkEngine doc (log_folder self) (exclusion_log_file self)
    (patient_scores self) (scores_log self).

(** The final order of the ranking: by score, larger first; among equal
    scores by [patient_index], smaller first. *)
Definition ranks_before (a b : Patient) : Prop :=
  (score b < score a)%Qc ∨ (score a = score b ∧ (patient_index a < patient_index b)%nat).

(** ** Concrete patients and documents *)

Definition sample_row (age : Z) (gender : string) (prescriptions : cell)
    (icd9_codes : string) : PatientData.t :=
  PatientData.mk 10006 "Ada" "Moss" age gender prescriptions (PyStr "[]") (PyStr "[]") icd9_codes.

Definition age_rule (min max : option Z) : Rule.t :=
  Rule.mk "age" min max None None None.
Definition gender_rule (gender : Z) : Rule.t :=
  Rule.mk "gender" None None (Some gender) None None.
Definition medications_rule (medications : list string) : Rule.t :=
  Rule.mk "medications" None None None (Some medications) None.
Definition conditions_rule (icd9_codes : list string) : Rule.t :=
  Rule.mk "preexisting_conditions" None None None None (Some icd9_codes).
Definition other_rule : Rule.t :=
  Rule.mk "other" None None None None None.

Definition half : Qc := (Qc_of_Z 1 / Qc_of_Z 2)%Qc.

(** What [for col in columns: for patient_med in patient.patient_data[col]]
    ranges over. *)
Definition medication_entries (patient : Patient) : list string :=
  py_iter (PatientData.prescriptions (patient_data patient)) ++
  py_iter (PatientData.prescriptions_poe (patient_data patient)) ++
  py_iter (PatientData.prescriptions_generic (patient_data patient)).

(** The patient of the furosemide example as [pd.read_csv] loads it (the
    cell is the text of the list), and with the cell decoded to a list. *)
Definition furosemide_csv_patient : Patient :=
  Patient_init 0
    (sample_row 60 "F"
       (PyStr "['furosemide', 'furosemide iv', 'insulin furosemide']") "[]").

Definition furosemide_list_patient : Patient :=
  Patient_init 0
    (sample_row 60 "F"
       (PyList ["furosemide"; "furosemide iv"; "insulin furosemide"]) "[]").

(** Patients with the codes 401.9 and 272.4, the first one written with a
    blank inside its quotes. *)
Definition plain_codes_patient : Patient :=
  Patient_init 0 (sample_row 60 "F" (PyStr "[]") "['401.9', '272.4']").

Definition spaced_codes_patient : Patient :=
  Patient_init 0 (sample_row 60 "F" (PyStr "[]") "[' 401.9', '272.4']").

(** The line, if any, that scoring the patient adds to the exclusion log. *)
Definition verdict_line (literal_eval : string → result (list string))
    (doc : Rules) (patient : Patient) : list ExclusionReason :=
  match exclusion_loop literal_eval patient (exclusion_criterium doc) with
  | Ok (Some reason) => [reason]
  | _ => []
  end.

(** [scored] is the loaded patient [patient] after the body of the scoring
    loop: the weighted sum, or [0.0] when the exclusion loop found a
    violation. *)
Definition scored_as (literal_eval : string → result (list string))
    (doc : Rules) (patient scored : Patient) : Prop :=
  ∃ sum verdict,
    weighted_sum literal_eval patient (inclusion_criterium doc) = Ok sum ∧
    exclusion_loop literal_eval patient (exclusion_criterium doc) = Ok verdict ∧
    scored = set_score patient (match verdict with Some _ => 0%Qc | None => sum end).

(** A document with two exclusion rules that the patient both violates. *)
Definition veto_doc : Rules :=
  mkRules [mkInclusion (gender_rule 2) 1%Qc]
          [mkExclusion (age_rule (Some 50) None); mkExclusion (gender_rule 1)].

Definition vetoed_row : PatientData.t := sample_row 40 "M" (PyStr "[]") "[]".

(** A trial with two weighted inclusion rules and one exclusion rule, and a
    table of four patients: two of them tie, the third is excluded. *)
Definition trial_doc : Rules :=
  mkRules [mkInclusion (age_rule (Some 50) None) half;
           mkInclusion (gender_rule 1) half]
          [mkExclusion (conditions_rule ["250.0"])].

Definition trial_rows : list PatientData.t :=
  [sample_row 40 "F" (PyStr "[]") "[]";
   sample_row 60 "F" (PyStr "[]") "['401.9']";
   sample_row 60 "F" (PyStr "[]") "['250.0', '401.9']";
   sample_row 45 "F" (PyStr "[]") "[]"].

(** The same trial with a rule of type "other" in both lists. *)
Definition trial_doc_other : Rules :=
  mkRules (mkInclusion other_rule 1%Qc :: inclusion_criterium trial_doc)
          (mkExclusion other_rule :: exclusion_criterium trial_doc).




(** No blank in front. *)
Definition clean_front (s : string) : Prop :=
  match s with
  | EmptyString => True
  | String c _ => isspace c = false
  end.


(** ** [class Application]: the caller of the engine *)

(** A line of the output box: the values that the f-string of
    [run_application] interpolates. *)
Module OutputLine.
Record t := mk {
  first_name : string;
  last_name : string;
  subject_id : Z;
  score : Qc;
}.
End OutputLine.

(** What [RuleBuilder.build_rule] gives for a description: the rule
    document, or the text of the exception that the client or [json.loads]
    raised.  The call is to an external service; the application is
    parametric in it. *)
Inductive Translation :=
| Translated (rules : Rules)
| TranslationFailed (text : string).

(** The text of an error box: a literal of the code, or [str(e)]. *)
Inductive ErrorText :=
| Text (s : string)
| ExceptionText (e : exception).

(** The dialog that ends [run_application]. *)
Inductive Dialog :=
| ShowError (text : ErrorText)               (* [messagebox.showerror("Error", text)] *)
| ShowSuccess (percentage_included : Qc).    (* [self.show_popup("Success", ...)] *)

(** The fields of the application object that [select_csv_file] and
    [run_application] read or write, the text widgets by their content. *)
Module Application.
Record t := mk {
  patient_csv_fp : option string;
  log_folder : string;
  csv_file_label : string;
  rule_text : string;
  output_text : list OutputLine.t;
}.
End Application.

(** The files that a call of [run_application] has written ([None]: not
    written by this call). *)
Record Files := mkFiles {
  parsed_rules_json : option Rules;
  exclusion_reasons_txt : option (list ExclusionReason);
  patient_scores_csv : option (list ScoreEntry.t);
}.

Definition no_files : Files := mkFiles None None None.

(** [Application()] *)
Definition Application_init : Application.t :=
  Application.mk None "logs" "No file selected" EmptyString [].

(** [Application.select_csv_file], with the path that the file dialog
    returns (empty when the dialog is cancelled); [basename] is
    [os.path.basename]. *)
Definition select_csv_file (basename : string → string) (self : Application.t)
    (file_path : string) : Application.t :=
  if negb (String.eqb file_path EmptyString)
  then Application.mk (Some file_path) (Application.log_folder self)
         (basename file_path) (Application.rule_text self) (Application.output_text self)
  else Application.mk None (Application.log_folder self)
         "No file selected" (Application.rule_text self) (Application.output_text self).

(** [patient.score > 0] *)
Definition included (patient : Patient) : Prop := (0 < score patient)%Qc.

(** The loop that builds [output_lines]. *)
Definition output_lines (patients : list Patient) : list OutputLine.t :=
  (λ patient,
     OutputLine.mk (PatientData.first_name (patient_data patient))
       (PatientData.last_name (patient_data patient))
       (PatientData.subject_id (patient_data patient))
       (score patient))
  <$> filter included patients.

(** [num_included_patients / num_patients * 100 if num_patients > 0 else 0] *)
Definition percentage_included (patients : list Patient) : Qc :=
  let num_patients := length patients in
  let num_included_patients := length (filter included patients) in
  if bool_decide (0 < num_patients)%nat
  then (Qc_of_nat num_included_patients / Qc_of_nat num_patients * Qc_of_Z 100)%Qc
  else 0%Qc.

(** [Application.run_application]; [patient_data] is the table in the file
    [self.patient_csv_fp], [json_fails] tells whether writing
    [parsed_rules.json] fails. *)
Definition run_application (build_rule : string → Translation)
    (literal_eval : string → result (list string))
    (self : Application.t) (patient_data : list PatientData.t)
    (json_fails : bool) (disk : Disk) : Application.t * Dialog * Files :=
  let rule_description := strip (Application.rule_text self) in
  if String.eqb rule_description EmptyString then
    (self, ShowError (Text "Please enter a rule description."), no_files)
  else if negb (truthy (Application.patient_csv_fp self)) then
    (self, ShowError (Text "Please select a patient CSV file."), no_files)
  else
    match build_rule rule_description with
    | TranslationFailed text => (self, ShowError (Text text), no_files)
    | Translated rules =>
        if json_fails then (self, ShowError (ExceptionText OSError), no_files)
        else
          let engine := Engine_init rules (Some (Application.log_folder self)) in
          let (engine, outcome) := sort_patients literal_eval engine patient_data disk in
          let files := mkFiles (Some rules) (exclusion_log_file engine) (scores_log engine) in
          match outcome with
          | Raise e => (self, ShowError (ExceptionText e), files)
          | Ok patients =>
              (Application.mk (Application.patient_csv_fp self)
                 (Application.log_folder self) (Application.csv_file_label self)
                 (Application.rule_text self) (output_lines patients),
               ShowSuccess (percentage_included patients), files)
          end
    end.



(** The sample trial without its exclusion rule. *)
Definition open_doc : Rules := mkRules (inclusion_criterium trial_doc) [].

Definition empty_doc : Rules := mkRules [] [].

(** The application with a file selected and a description typed in, and
    a translator that answers with the sample trial. *)
Definition sample_application : Application.t :=
  Application.mk (Some "patients.csv") "logs" "patients.csv"
    "Women over fifty without diabetes" [].

Definition sample_build_rule (rule_description : string) : Translation :=
  Translated trial_doc.

#[local] Set Warnings "-clear-no-such-hyp".

(** ** The error monad *)

Lemma bind_Ok {A B} (m : result A) (f : A → result B) (b : B) :
  m ≫= f = Ok b ↔ ∃ a, m = Ok a ∧ f a = Ok b.
Proof.
  destruct m as [a|e]; simpl; split.
  - intros H. exists a. split; [reflexivity | exact H].
  - intros (a' & Ha & H). injection Ha as ->. exact H.
  - intros H. discriminate H.
  - intros (a' & Ha & _). discriminate Ha.
Qed.

Ltac result_cases :=
  repeat match goal with
  | |- context [String.eqb ?a ?b] => destruct (String.eqb_spec a b)
  | |- context [subscript _ ?o] => destruct o; simpl
  | H : context [String.eqb ?a ?b] |- _ => destruct (String.eqb_spec a b)
  end.

(** ** Rational scores *)

Lemma Qc_of_nat_nonneg (n : nat) : (0 ≤ Qc_of_nat n)%Qc.
Proof. unfold Qc_of_nat, Qcle. simpl. unfold Qle. simpl. lia. Qed.

Lemma Qc_of_nat_pos (n : nat) : (0 < n)%nat → (0 < Qc_of_nat n)%Qc.
Proof. intros H. unfold Qc_of_nat, Qclt. simpl. unfold Qlt. simpl. lia. Qed.

Lemma Qc_of_nat_le (m n : nat) : (m ≤ n)%nat → (Qc_of_nat m ≤ Qc_of_nat n)%Qc.
Proof. intros H. unfold Qc_of_nat, Qcle. simpl. unfold Qle. simpl. lia. Qed.

(** A quotient of two counts, the numerator not above the denominator. *)
Lemma ratio_in_unit_interval (m n : nat) :
  (m ≤ n)%nat → (0 < n)%nat →
  (0 ≤ Qc_of_nat m / Qc_of_nat n)%Qc ∧ (Qc_of_nat m / Qc_of_nat n ≤ 1)%Qc.
Proof.
  intros Hmn Hn.
  pose proof (Qc_of_nat_pos n Hn) as Hpos.
  assert (Hne : Qc_of_nat n ≠ 0%Qc).
  { intros E. rewrite E in Hpos. exact (Qclt_not_eq _ _ Hpos eq_refl). }
  assert (Hinv : (0 < / Qc_of_nat n)%Qc) by (apply Qcinv_pos; exact Hpos).
  unfold Qcdiv. split.
  - apply Qcmult_nonneg_nonneg; [apply Qc_of_nat_nonneg | apply Qclt_le_weak, Hinv].
  - rewrite <- (Qcmult_inv_r (Qc_of_nat n) Hne).
    apply Qcmult_le_compat_r; [apply Qc_of_nat_le, Hmn | apply Qclt_le_weak, Hinv].
Qed.

(** ** Strings *)

Lemma lower_length (s : string) : String.length (lower s) = String.length s.
Proof. induction s as [|c s IH]; simpl; [reflexivity | rewrite IH; reflexivity]. Qed.

Lemma lstrip_length (s : string) : (String.length (lstrip s) ≤ String.length s)%nat.
Proof. induction s as [|c s IH]; simpl; [lia|]. destruct (isspace c); simpl; lia. Qed.

Lemma rstrip_length (s : string) : (String.length (rstrip s) ≤ String.length s)%nat.
Proof.
  induction s as [|c s IH]; simpl; [lia|].
  destruct (rstrip s) as [|c' r]; [destruct (isspace c)|]; simpl in *; lia.
Qed.

Lemma strip_length (s : string) : (String.length (strip s) ≤ String.length s)%nat.
Proof. unfold strip. etrans; [apply rstrip_length | apply lstrip_length]. Qed.

Lemma prefix_length (needle hay : string) :
  String.prefix needle hay = true → (String.length needle ≤ String.length hay)%nat.
Proof.
  revert needle. induction hay as [|d hay IH]; intros [|c needle]; simpl;
    try lia; try discriminate.
  destruct (Ascii.ascii_dec c d); [|discriminate].
  intros H. apply IH in H. lia.
Qed.

Lemma contains_length (needle hay : string) :
  contains needle hay = true → (String.length needle ≤ String.length hay)%nat.
Proof.
  induction hay as [|d hay IH].
  - destruct needle; simpl; [lia | discriminate].
  - change (contains needle (String d hay))
      with (String.prefix needle (String d hay) || contains needle hay).
    intros H. apply orb_true_iff in H as [H|H].
    + apply prefix_length in H. exact H.
    + apply IH in H. simpl. lia.
Qed.

Lemma prefix_spec (needle hay : string) :
  String.prefix needle hay = true ↔ ∃ post, hay = needle +:+ post.
Proof.
  revert needle. induction hay as [|d hay IH]; intros [|c needle]; simpl.
  - split; [exists EmptyString; reflexivity | reflexivity].
  - split; [discriminate | intros [post H]; discriminate H].
  - split; [eexists; reflexivity | reflexivity].
  - destruct (Ascii.ascii_dec c d) as [->|N].
    + rewrite IH. split; intros [post H]; exists post.
      * rewrite H. reflexivity.
      * injection H as H. exact H.
    + split; [discriminate | intros [post H]; injection H as H _; congruence].
Qed.

(** [contains] is the substring test. *)
Lemma contains_spec (needle hay : string) :
  contains needle hay = true ↔ ∃ pre post, hay = pre +:+ needle +:+ post.
Proof.
  induction hay as [|d hay IH].
  - destruct needle as [|c needle]; simpl; split.
    + intros _. exists EmptyString, EmptyString. reflexivity.
    + reflexivity.
    + discriminate.
    + intros (pre & post & H). destruct pre; discriminate H.
  - change (contains needle (String d hay))
      with (String.prefix needle (String d hay) || contains needle hay).
    rewrite orb_true_iff, prefix_spec, IH. split.
    + intros [[post H] | (pre & post & H)].
      * exists EmptyString, post. exact H.
      * exists (String d pre), post. rewrite H. reflexivity.
    + intros (pre & post & H). destruct pre as [|d' pre]; simpl in H.
      * left. exists post. exact H.
      * right. injection H as _ H. exists pre, post. exact H.
Qed.

Example strip_example : strip "  Furosemide IV  " = "Furosemide IV".
Proof. reflexivity. Qed.
Example lower_example : lower "Furosemide IV [5%]" = "furosemide iv [5%]".
Proof. reflexivity. Qed.
Example contains_example :
  contains "furosemide" "insulin furosemide" = true ∧
  contains "furosemide" "f" = false ∧ contains EmptyString "abc" = true.
Proof. repeat split. Qed.
Example py_iter_example : py_iter (PyStr "['a']") = ["["; "'"; "a"; "'"; "]"].
Proof. reflexivity. Qed.
Example list_literal_example :
  list_literal "['4019', '2724',]" = Ok ["4019"; "2724"] ∧
  list_literal "[' 401.9', '272.4']" = Ok [" 401.9"; "272.4"] ∧
  list_literal "[]" = Ok [] ∧
  list_literal "4019" = Raise LiteralError.
Proof. repeat split. Qed.

(** ** The evaluators *)

(** C4: [Engine.age] is [0.0] below a given [min], [0.0] above a given
    [max] and [1.0] otherwise; without bounds it is [1.0] for every age; for
    the rule with min 58 and max 70 the ages 57, 58, 70, 71 give 0.0, 1.0,
    1.0, 0.0. *)
Theorem age_within_bounds (patient : Patient) (min max : option Z) :
  let a := PatientData.age (patient_data patient) in
  (∀ m, min = Some m → a < m → age patient min max = 0%Qc) ∧
  (∀ m, max = Some m → a > m → age patient min max = 0%Qc) ∧
  ((∀ m, min = Some m → ¬ a < m) → (∀ m, max = Some m → ¬ a > m) →
     age patient min max = 1%Qc) ∧
  age patient None None = 1%Qc ∧
  (a = 57 → age patient (Some 58) (Some 70) = 0%Qc) ∧
  (a = 58 → age patient (Some 58) (Some 70) = 1%Qc) ∧
  (a = 70 → age patient (Some 58) (Some 70) = 1%Qc) ∧
  (a = 71 → age patient (Some 58) (Some 70) = 0%Qc).
Proof.
  intros a. unfold age. fold a. repeat split.
  - intros m -> Hlt. rewrite bool_decide_eq_true_2 by exact Hlt. reflexivity.
  - intros m -> Hgt. destruct min as [m'|]; [case_bool_decide|];
      try reflexivity; rewrite bool_decide_eq_true_2 by exact Hgt; reflexivity.
  - intros Hmin Hmax.
    destruct min as [m|].
    + rewrite bool_decide_eq_false_2 by (apply Hmin; reflexivity).
      destruct max as [m'|]; [|reflexivity].
      rewrite bool_decide_eq_false_2 by (apply Hmax; reflexivity). reflexivity.
    + destruct max as [m'|]; [|reflexivity].
      rewrite bool_decide_eq_false_2 by (apply Hmax; reflexivity). reflexivity.
  - intros ->. reflexivity.
  - intros ->. reflexivity.
  - intros ->. reflexivity.
  - intros ->. reflexivity.
Qed.

Lemma age_within_bounds_witness :
  age (Patient_init 0 (sample_row 57 "F" (PyStr "[]") "[]")) (Some 58) (Some 70) = 0%Qc ∧
  age (Patient_init 1 (sample_row 71 "F" (PyStr "[]") "[]")) (Some 58) (Some 70) = 0%Qc ∧
  age (Patient_init 2 (sample_row 58 "F" (PyStr "[]") "[]")) (Some 58) (Some 70) = 1%Qc.
Proof.
  split; [|split].
  - destruct (age_within_bounds (Patient_init 0 (sample_row 57 "F" (PyStr "[]") "[]"))
                (Some 58) (Some 70)) as (Hmin & _).
    apply (Hmin 58); [reflexivity | simpl; lia].
  - destruct (age_within_bounds (Patient_init 1 (sample_row 71 "F" (PyStr "[]") "[]"))
                (Some 58) (Some 70)) as (_ & Hmax & _).
    apply (Hmax 70); [reflexivity | simpl; lia].
  - destruct (age_within_bounds (Patient_init 2 (sample_row 58 "F" (PyStr "[]") "[]"))
                (Some 58) (Some 70)) as (_ & _ & Hin & _).
    apply Hin; intros m [= <-]; simpl; lia.
Defined.

Lemma age_zero_or_one (patient : Patient) (min max : option Z) :
  age patient min max = 0%Qc ∨ age patient min max = 1%Qc.
Proof.
  unfold age. destruct min, max; repeat case_bool_decide; auto.
Qed.

Lemma gender_zero_or_one (patient : Patient) (g : Z) :
  gender patient g = 0%Qc ∨ gender patient g = 1%Qc.
Proof.
  unfold gender. repeat case_bool_decide; auto;
    destruct (String.eqb _ _); auto.
Qed.

(** The innermost loop of [Engine.medications] adds the number of entries
    that contain [med]. *)
Lemma count_entries (med : string) (entries : list string) (n : nat) :
  foldl (λ matches patient_med,
           if contains med (strip (lower patient_med)) then S matches else matches)
        n entries
  = (n + length (filter (λ e, contains med (strip (lower e)) = true) entries))%nat.
Proof.
  revert n. induction entries as [|e entries IH]; intros n; simpl.
  - lia.
  - rewrite IH, filter_cons.
    destruct (contains med (strip (lower e))) eqn:E.
    + rewrite decide_True by reflexivity. simpl. lia.
    + rewrite decide_False by discriminate. lia.
Qed.

(** [matches] counts, for every target, every entry that the loops range
    over and that contains the target. *)
Lemma count_matches_entries (patient : Patient) (meds : list string) (n : nat) :
  count_matches patient meds n
  = (n + sum_list ((λ med, matching_entries med (medication_entries patient)) <$> meds))%nat.
Proof.
  unfold count_matches. revert n.
  induction meds as [|med meds IH]; intros n; simpl.
  - lia.
  - rewrite IH. rewrite !count_entries.
    unfold matching_entries, medication_entries.
    rewrite !filter_app, !length_app, !Nat.add_assoc. reflexivity.
Qed.

(** [Engine.medications] is the quotient of that count by the number of
    targets, whatever its size, and [0.0] without targets. *)
Lemma medications_ratio (patient : Patient) (meds : list string) :
  medications patient meds =
    if bool_decide (0 < length meds)%nat
    then (Qc_of_nat (sum_list ((λ med, matching_entries med (medication_entries patient)) <$> meds))
          / Qc_of_nat (length meds))%Qc
    else 0%Qc.
Proof. unfold medications. rewrite count_matches_entries. reflexivity. Qed.

Lemma medications_empty (patient : Patient) : medications patient [] = 0%Qc.
Proof. reflexivity. Qed.

Lemma medications_nonneg (patient : Patient) (meds : list string) :
  (0 ≤ medications patient meds)%Qc.
Proof.
  unfold medications. case_bool_decide as H; [|apply Qcle_refl].
  unfold Qcdiv. apply Qcmult_nonneg_nonneg; [apply Qc_of_nat_nonneg|].
  apply Qclt_le_weak, Qcinv_pos, Qc_of_nat_pos, H.
Qed.

(** Iterating over a text cell yields its characters one by one. *)
Lemma py_iter_str_length (s e : string) :
  e ∈ py_iter (PyStr s) → String.length e = 1%nat.
Proof.
  simpl. intros H. apply list_elem_of_fmap in H as (ch & -> & _). reflexivity.
Qed.

Lemma matching_entries_csv (med : string) (entries : list string) :
  Forall (λ e, String.length e = 1%nat) entries →
  (2 ≤ String.length (strip (lower med)))%nat →
  matching_entries med entries = 0%nat.
Proof.
  intros Hentries Hmed. unfold matching_entries.
  induction Hentries as [|e entries He _ IH]; [reflexivity|].
  rewrite filter_cons.
  destruct (contains (strip (lower med)) (strip (lower e))) eqn:E.
  - apply contains_length in E.
    pose proof (strip_length (lower e)) as Hs. rewrite lower_length in Hs. lia.
  - rewrite decide_False by discriminate. exact IH.
Qed.

(** On cells that are text, as [pd.read_csv] delivers them, no target of two
    or more characters is ever found: the evaluator returns [0.0]. *)
Lemma medications_csv_cells (patient : Patient) (meds : list string) (s1 s2 s3 : string) :
  PatientData.prescriptions (patient_data patient) = PyStr s1 →
  PatientData.prescriptions_poe (patient_data patient) = PyStr s2 →
  PatientData.prescriptions_generic (patient_data patient) = PyStr s3 →
  Forall (λ med, (2 ≤ String.length (strip (lower med)))%nat) meds →
  medications patient meds = 0%Qc.
Proof.
  intros H1 H2 H3 Hmeds. rewrite medications_ratio.
  assert (Hsum : sum_list ((λ med, matching_entries med (medication_entries patient)) <$> meds) = 0%nat).
  { induction Hmeds as [|med meds Hmed _ IH]; [reflexivity|].
    rewrite fmap_cons. simpl. rewrite IH, matching_entries_csv; [reflexivity | | exact Hmed].
    unfold medication_entries. rewrite H1, H2, H3.
    rewrite !Forall_app. repeat split; apply Forall_forall; intros e He;
      eapply py_iter_str_length, He. }
  rewrite Hsum. case_bool_decide; [|reflexivity].
  apply Qc_is_canon. reflexivity.
Qed.

(** C3: on the row that [pd.read_csv] delivers, the medication cell is the
    text of the list; [Engine.medications] iterates over its characters,
    none of which contains the target, and returns 0.0, where the three
    entries "furosemide", "furosemide iv" and "insulin furosemide" are to
    give the match count 3 and the score 3.0 (as they do once the cell is a
    list). *)
Theorem medications_csv_cell_not_decoded :
  count_matches furosemide_csv_patient ["furosemide"] 0 = 0%nat ∧
  medications furosemide_csv_patient ["furosemide"] = 0%Qc ∧
  count_matches furosemide_list_patient ["furosemide"] 0 = 3%nat ∧
  medications furosemide_list_patient ["furosemide"] = Qc_of_Z 3.
Proof.
  repeat split; try reflexivity; apply Qc_is_canon; reflexivity.
Qed.

Lemma Ok_by_evaluation (r : result Qc) (q : Qc) :
  match r with Ok v => bool_decide (v = q) | Raise _ => false end = true →
  r = Ok q.
Proof.
  destruct r as [v|e]; [|discriminate].
  intros H. apply bool_decide_eq_true_1 in H. rewrite H. reflexivity.
Qed.

(** [Engine.preexisting_conditions] returns a value between 0.0 and 1.0:
    the intersection is a subset of the study codes. *)
Lemma preexisting_conditions_bounded (literal_eval : string → result (list string))
    (patient : Patient) (study_icd9_codes : list string) (v : Qc) :
  preexisting_conditions literal_eval patient study_icd9_codes = Ok v →
  (0 ≤ v)%Qc ∧ (v ≤ 1)%Qc.
Proof.
  unfold preexisting_conditions. intros H.
  apply bind_Ok in H as (codes & _ & [= <-]).
  case_bool_decide as Hsize.
  - apply ratio_in_unit_interval; [|exact Hsize].
    apply subseteq_size. set_solver.
  - split; [apply Qcle_refl | discriminate].
Qed.

(** Without study codes the score is [0.0], when the cell decodes. *)
Lemma preexisting_conditions_empty (literal_eval : string → result (list string))
    (patient : Patient) (v : Qc) :
  preexisting_conditions literal_eval patient [] = Ok v → v = 0%Qc.
Proof.
  unfold preexisting_conditions. intros H.
  apply bind_Ok in H as (codes & _ & [= <-]).
  reflexivity.
Qed.

(** The example of the specification: the codes 401.9 and 272.4 against
    the study codes 401.9 and 250.0 score one half. *)
Lemma preexisting_conditions_one_of_two :
  preexisting_conditions list_literal plain_codes_patient ["401.9"; "250.0"] = Ok half.
Proof. apply Ok_by_evaluation. vm_compute. reflexivity. Qed.

(** C6: the study codes are trimmed one by one, the patient's cell only as
    a whole.  A code written with a blank inside its quotes stays untrimmed
    and misses the study code it names: the score is 0.0 where the set of
    lowercase, trimmed patient codes gives one half. *)
Theorem preexisting_conditions_patient_codes_untrimmed :
  preexisting_conditions list_literal spaced_codes_patient ["401.9"; "250.0"] = Ok 0%Qc ∧
  preexisting_conditions_spec list_literal spaced_codes_patient ["401.9"; "250.0"] = Ok half.
Proof. split; apply Ok_by_evaluation; vm_compute; reflexivity. Qed.

(** ** The two loops over the rule document *)

Lemma age_set_score (patient : Patient) (s : Qc) (min max : option Z) :
  age (set_score patient s) min max = age patient min max.
Proof. reflexivity. Qed.

Lemma exclusion_step_set_score (literal_eval : string → result (list string))
    (patient : Patient) (s : Qc) (c : ExclusionCriterium) :
  exclusion_step literal_eval (set_score patient s) c
  = exclusion_step literal_eval patient c.
Proof. reflexivity. Qed.

Lemma exclusion_loop_set_score (literal_eval : string → result (list string))
    (patient : Patient) (s : Qc) (cs : list ExclusionCriterium) :
  exclusion_loop literal_eval (set_score patient s) cs
  = exclusion_loop literal_eval patient cs.
Proof.
  induction cs as [|c cs IH]; simpl; [reflexivity|].
  rewrite exclusion_step_set_score, IH. reflexivity.
Qed.

Lemma inclusion_loop_set_score (literal_eval : string → result (list string))
    (patient : Patient) (s : Qc) (cs : list InclusionCriterium) (score : Qc) :
  inclusion_loop literal_eval (set_score patient s) cs score
  = inclusion_loop literal_eval patient cs score.
Proof.
  revert score. induction cs as [|c cs IH]; intros score; simpl; [reflexivity|].
  change (inclusion_step literal_eval (set_score patient s) c score)
    with (inclusion_step literal_eval patient c score).
  destruct (inclusion_step literal_eval patient c score); simpl; [apply IH | reflexivity].
Qed.

(** One pass of the inclusion loop adds (evaluator value) * (weight). *)
Lemma inclusion_step_value (literal_eval : string → result (list string))
    (patient : Patient) (c : InclusionCriterium) (score : Qc) :
  inclusion_step literal_eval patient c score
  = (v ← evaluator_value literal_eval patient (in_rule c);
     mret (score + v * weight c)%Qc).
Proof.
  unfold inclusion_step, evaluator_value.
  result_cases; try reflexivity.
  simpl. rewrite Qcmult_0_l, Qcplus_0_r. reflexivity.
Qed.

Lemma inclusion_loop_terms (literal_eval : string → result (list string))
    (patient : Patient) (cs : list InclusionCriterium) (score : Qc) :
  inclusion_loop literal_eval patient cs score
  = (terms ← inclusion_terms literal_eval patient cs;
     mret (foldl Qcplus score terms)).
Proof.
  revert score. induction cs as [|c cs IH]; intros score; simpl; [reflexivity|].
  rewrite inclusion_step_value.
  destruct (evaluator_value literal_eval patient (in_rule c)) as [v|e]; simpl;
    [|reflexivity].
  rewrite IH.
  destruct (inclusion_terms literal_eval patient cs); reflexivity.
Qed.

(** The inclusion loop from [0.0] is the weighted sum. *)
Lemma inclusion_loop_weighted_sum (literal_eval : string → result (list string))
    (patient : Patient) (cs : list InclusionCriterium) :
  inclusion_loop literal_eval patient cs 0%Qc = weighted_sum literal_eval patient cs.
Proof. apply inclusion_loop_terms. Qed.

(** A pass of the exclusion loop takes its violation branch exactly when
    the rule is violated. *)
Lemma exclusion_step_violated (literal_eval : string → result (list string))
    (patient : Patient) (c : ExclusionCriterium) (verdict : option ExclusionReason) :
  exclusion_step literal_eval patient c = Ok verdict →
  violated literal_eval patient (ex_rule c) = Ok (bool_decide (is_Some verdict)).
Proof.
  unfold exclusion_step, violated, evaluator_value.
  destruct (String.eqb_spec (Rule.type (ex_rule c)) "age") as [E|N1].
  { rewrite E. simpl. case_bool_decide; intros [= <-]; reflexivity. }
  destruct (String.eqb_spec (Rule.type (ex_rule c)) "gender") as [E|N2].
  { rewrite E. destruct (Rule.gender (ex_rule c)); simpl; [|discriminate].
    case_bool_decide; intros [= <-]; reflexivity. }
  destruct (String.eqb_spec (Rule.type (ex_rule c)) "medications") as [E|N3].
  { rewrite E. destruct (Rule.medications (ex_rule c)); simpl; [|discriminate].
    case_bool_decide; intros [= <-]; reflexivity. }
  destruct (String.eqb_spec (Rule.type (ex_rule c)) "preexisting_conditions") as [E|N4].
  { rewrite E. destruct (Rule.icd9_codes (ex_rule c)); simpl; [|discriminate].
    destruct (preexisting_conditions _ _ _); simpl; [|discriminate].
    case_bool_decide; intros [= <-]; reflexivity. }
  intros [= <-]. simpl.
  rewrite !bool_decide_eq_false_2 by set_solver. reflexivity.
Qed.

(** The line that a violation writes names the violated rule's type and the
    patient. *)
Lemma exclusion_step_reason (literal_eval : string → result (list string))
    (patient : Patient) (c : ExclusionCriterium) (reason : ExclusionReason) :
  exclusion_step literal_eval patient c = Ok (Some reason) →
  reason_type reason = Rule.type (ex_rule c) ∧
  reason_index reason = patient_index patient.
Proof.
  unfold exclusion_step.
  destruct (String.eqb_spec (Rule.type (ex_rule c)) "age") as [E|N1].
  { case_bool_decide; intros [= <-]. split; [symmetry; exact E | reflexivity]. }
  destruct (String.eqb_spec (Rule.type (ex_rule c)) "gender") as [E|N2].
  { destruct (Rule.gender (ex_rule c)); simpl; [|discriminate].
    case_bool_decide; intros [= <-]. split; [symmetry; exact E | reflexivity]. }
  destruct (String.eqb_spec (Rule.type (ex_rule c)) "medications") as [E|N3].
  { destruct (Rule.medications (ex_rule c)); simpl; [|discriminate].
    case_bool_decide; intros [= <-]. split; [symmetry; exact E | reflexivity]. }
  destruct (String.eqb_spec (Rule.type (ex_rule c)) "preexisting_conditions") as [E|N4].
  { destruct (Rule.icd9_codes (ex_rule c)); simpl; [|discriminate].
    destruct (preexisting_conditions _ _ _); simpl; [|discriminate].
    case_bool_decide; intros [= <-]. split; [symmetry; exact E | reflexivity]. }
  discriminate.
Qed.

Lemma exclusion_loop_app (literal_eval : string → result (list string))
    (patient : Patient) (cs1 cs2 : list ExclusionCriterium) :
  exclusion_loop literal_eval patient (cs1 ++ cs2)
  = match exclusion_loop literal_eval patient cs1 with
    | Ok None => exclusion_loop literal_eval patient cs2
    | r => r
    end.
Proof.
  induction cs1 as [|c cs1 IH]; simpl; [reflexivity|].
  destruct (exclusion_step literal_eval patient c) as [[reason|]|e]; simpl;
    [reflexivity | exact IH | reflexivity].
Qed.

(** The exclusion loop passes the rules in document order and leaves at
    the first one whose pass takes the violation branch. *)
Lemma exclusion_loop_first (literal_eval : string → result (list string))
    (patient : Patient) (cs : list ExclusionCriterium)
    (verdict : option ExclusionReason) :
  exclusion_loop literal_eval patient cs = Ok verdict →
  match verdict with
  | None => Forall (λ c, exclusion_step literal_eval patient c = Ok None) cs
  | Some reason =>
      ∃ before c after,
        cs = before ++ c :: after ∧
        Forall (λ c', exclusion_step literal_eval patient c' = Ok None) before ∧
        exclusion_step literal_eval patient c = Ok (Some reason)
  end.
Proof.
  revert verdict. induction cs as [|c cs IH]; intros verdict; simpl.
  - intros [= <-]. constructor.
  - destruct (exclusion_step literal_eval patient c) as [[reason|]|e] eqn:E; simpl.
    + intros [= <-]. exists [], c, cs. repeat split; [constructor | exact E].
    + intros H. specialize (IH _ H). destruct verdict as [reason|].
      * destruct IH as (before & c' & after & -> & Hb & Hc).
        exists (c :: before), c', after. repeat split;
          [constructor; assumption | exact Hc].
      * constructor; assumption.
    + discriminate.
Qed.

(** ** The scoring loop over the patients *)

Lemma weighted_sum_set_score (literal_eval : string → result (list string))
    (patient : Patient) (s : Qc) (cs : list InclusionCriterium) :
  weighted_sum literal_eval (set_score patient s) cs
  = weighted_sum literal_eval patient cs.
Proof.
  rewrite <- !inclusion_loop_weighted_sum. apply inclusion_loop_set_score.
Qed.

Lemma score_patient_Ok (literal_eval : string → result (list string))
    (self self' : Engine) (patient patient' : Patient) :
  score_patient literal_eval self patient = (self', Ok patient') →
  ∃ sum verdict,
    weighted_sum literal_eval patient (inclusion_criterium (rules self)) = Ok sum ∧
    exclusion_loop literal_eval patient (exclusion_criterium (rules self)) = Ok verdict ∧
    patient' = set_score patient (match verdict with Some _ => 0%Qc | None => sum end) ∧
    self' = append_score
              (match verdict with Some reason => write_reason self reason | None => self end)
              patient'.
Proof.
  unfold score_patient.
  rewrite inclusion_loop_weighted_sum.
  destruct (weighted_sum _ _ _) as [sum|e]; [|discriminate].
  rewrite exclusion_loop_set_score.
  destruct (exclusion_loop _ _ _) as [[reason|]|e]; [| |discriminate];
    intros [= <- <-]; eexists _, _; repeat split.
Qed.

Lemma score_patient_scored_as (literal_eval : string → result (list string))
    (self self' : Engine) (patient patient' : Patient) :
  score_patient literal_eval self patient = (self', Ok patient') →
  scored_as literal_eval (rules self) patient patient'.
Proof.
  intros H. apply score_patient_Ok in H as (sum & verdict & Hs & Hv & -> & _).
  exists sum, verdict. repeat split; assumption.
Qed.

(** What a completed scoring loop leaves: every patient scored in the
    order of the list, one score entry appended per patient, one line
    written per excluded patient when the file is open. *)
Lemma score_patients_Ok (literal_eval : string → result (list string))
    (self self' : Engine) (patients scored : list Patient) :
  score_patients literal_eval self patients = (self', Ok scored) →
  Forall2 (scored_as literal_eval (rules self)) patients scored ∧
  rules self' = rules self ∧
  log_folder self' = log_folder self ∧
  scores_log self' = scores_log self ∧
  patient_scores self' = patient_scores self ++ (score_entry <$> scored) ∧
  exclusion_log_file self'
  = (λ lines, lines ++ concat (verdict_line literal_eval (rules self) <$> patients))
      <$> exclusion_log_file self.
Proof.
  revert self self' scored.
  induction patients as [|patient rest IH]; intros self self' scored; simpl.
  - intros [= <- <-]. repeat split; [constructor | | ].
    + rewrite app_nil_r. reflexivity.
    + destruct (exclusion_log_file self); simpl; [rewrite app_nil_r|]; reflexivity.
  - destruct (score_patient literal_eval self patient) as [self1 [patient'|e]] eqn:E1;
      [|discriminate].
    destruct (score_patients literal_eval self1 rest) as [self2 [rest'|e]] eqn:E2;
      [|discriminate].
    intros [= <- <-].
    pose proof (score_patient_scored_as _ _ _ _ _ E1) as Hscored.
    apply score_patient_Ok in E1 as (sum & verdict & Hs & Hv & Hp & Hself1).
    apply IH in E2 as (Hrest & Hrules & Hfolder & Hlog & Hscores & Hfile).
    assert (Hr1 : rules self1 = rules self) by (rewrite Hself1; destruct verdict; reflexivity).
    rewrite Hr1 in *.
    repeat split.
    + constructor; assumption.
    + exact Hrules.
    + rewrite Hfolder, Hself1. destruct verdict; reflexivity.
    + rewrite Hlog, Hself1. destruct verdict; reflexivity.
    + rewrite Hscores, Hself1. simpl.
      replace (patient_scores (match verdict with
                               | Some reason => write_reason self reason
                               | None => self end))
        with (patient_scores self) by (destruct verdict; reflexivity).
      rewrite <- app_assoc. reflexivity.
    + rewrite Hfile, Hself1. unfold verdict_line at 2. rewrite Hv.
      destruct verdict as [reason|]; simpl;
        destruct (exclusion_log_file self); simpl; try reflexivity.
      rewrite <- app_assoc. reflexivity.
Qed.

Lemma score_patients_length (literal_eval : string → result (list string))
    (self self' : Engine) (patients scored : list Patient) :
  score_patients literal_eval self patients = (self', Ok scored) →
  length scored = length patients.
Proof.
  intros H. apply score_patients_Ok in H as (H & _).
  symmetry. eapply Forall2_length, H.
Qed.

Lemma scored_as_index (literal_eval : string → result (list string))
    (doc : Rules) (patients scored : list Patient) :
  Forall2 (scored_as literal_eval doc) patients scored →
  patient_index <$> scored = patient_index <$> patients.
Proof.
  induction 1 as [|p p' ps ps' (sum & verdict & _ & _ & ->) _ IH];
    [reflexivity|].
  rewrite !fmap_cons, IH. reflexivity.
Qed.

Lemma load_patients_index_from (k : nat) (rows : list PatientData.t) :
  patient_index <$> imap (λ i, Patient_init (k + i)) rows = seq k (length rows).
Proof.
  revert k. induction rows as [|row rows IH]; intros k; [reflexivity|].
  rewrite imap_cons, fmap_cons. simpl. rewrite Nat.add_0_r. f_equal.
  rewrite <- (IH (S k)). f_equal. apply imap_ext. intros i x _. simpl.
  f_equal. lia.
Qed.

(** The loaded patients carry the indices 0, 1, 2, ... in table order. *)
Lemma load_patients_index (rows : list PatientData.t) :
  patient_index <$> load_patients rows = seq 0 (length rows).
Proof. apply (load_patients_index_from 0). Qed.

(** ** The ranking *)

Lemma insert_by_score_perm (x : Patient) (l : list Patient) :
  insert_by_score x l ≡ₚ x :: l.
Proof.
  induction l as [|y l IH]; simpl; [reflexivity|].
  case_bool_decide; [|reflexivity].
  rewrite IH. apply Permutation_swap.
Qed.

Lemma sort_by_score_perm (l : list Patient) : sort_by_score l ≡ₚ l.
Proof.
  induction l as [|x l IH]; simpl; [reflexivity|].
  rewrite insert_by_score_perm, IH. reflexivity.
Qed.

Lemma ranks_before_le (a b : Patient) : ranks_before a b → (score b ≤ score a)%Qc.
Proof.
  intros [Hlt | [Heq _]]; [apply Qclt_le_weak, Hlt | rewrite Heq; apply Qcle_refl].
Qed.

Lemma ranks_before_intro (a b : Patient) :
  (score b ≤ score a)%Qc → (patient_index a < patient_index b)%nat →
  ranks_before a b.
Proof.
  intros Hle Hidx. destruct (Qcle_lt_or_eq _ _ Hle) as [Hlt | Heq].
  - left. exact Hlt.
  - right. split; [symmetry; exact Heq | exact Hidx].
Qed.

(** Inserting a patient that comes from in front of the sorted part keeps
    the order by descending score and, among ties, ascending index. *)
Lemma insert_by_score_sorted (x : Patient) (l : list Patient) :
  StronglySorted ranks_before l →
  Forall (λ y, (patient_index x < patient_index y)%nat) l →
  StronglySorted ranks_before (insert_by_score x l).
Proof.
  induction 1 as [|y l Hl IH Hy]; intros Hidx; simpl.
  - repeat constructor.
  - apply Forall_cons in Hidx as [Hxy Hidx].
    case_bool_decide as Hlt.
    + constructor; [apply IH, Hidx|].
      rewrite insert_by_score_perm. constructor; [left; exact Hlt | exact Hy].
    + apply Qcnot_lt_le in Hlt.
      constructor; [constructor; assumption|].
      constructor; [apply ranks_before_intro; assumption|].
      rewrite Forall_forall in Hy, Hidx. apply Forall_forall. intros z Hz.
      apply ranks_before_intro; [|apply Hidx, Hz].
      eapply Qcle_trans; [apply ranks_before_le, Hy, Hz | exact Hlt].
Qed.

Lemma sort_by_score_sorted (l : list Patient) :
  StronglySorted (λ a b, (patient_index a < patient_index b)%nat) l →
  StronglySorted ranks_before (sort_by_score l).
Proof.
  induction 1 as [|x l Hl IH Hx]; simpl; [constructor|].
  apply insert_by_score_sorted; [exact IH|].
  rewrite sort_by_score_perm. exact Hx.
Qed.

Lemma ranks_before_asym (a b : Patient) : ranks_before a b → ranks_before b a → False.
Proof.
  intros [Hab | [Eab Iab]] [Hba | [Eba Iba]].
  - exact (Qclt_not_eq _ _ (Qclt_trans _ _ _ Hab Hba) eq_refl).
  - rewrite Eba in Hab. exact (Qclt_not_eq _ _ Hab eq_refl).
  - rewrite Eab in Hba. exact (Qclt_not_eq _ _ Hba eq_refl).
  - lia.
Qed.

(** The ranking is the only arrangement of the scored patients that is in
    the final order: every stable sort by descending score returns it. *)
Lemma stable_ranking_unique (l l' : list Patient) :
  StronglySorted (λ a b, (patient_index a < patient_index b)%nat) l →
  l' ≡ₚ l → StronglySorted ranks_before l' → l' = sort_by_score l.
Proof.
  intros Hl Hperm Hl'.
  apply (StronglySorted_unique_strong ranks_before).
  - intros x y _ _ Hxy Hyx. destruct (ranks_before_asym x y Hxy Hyx).
  - exact Hl'.
  - apply sort_by_score_sorted, Hl.
  - rewrite sort_by_score_perm. exact Hperm.
Qed.

Lemma StronglySorted_seq (k n : nat) : StronglySorted lt (seq k n).
Proof.
  revert k. induction n as [|n IH]; intros k; simpl; constructor; [apply IH|].
  apply Forall_seq. intros j Hj. lia.
Qed.

Lemma StronglySorted_by_index (l : list Patient) :
  StronglySorted lt (patient_index <$> l) →
  StronglySorted (λ a b, (patient_index a < patient_index b)%nat) l.
Proof.
  induction l as [|x l IH]; [constructor|].
  rewrite fmap_cons. intros H. apply StronglySorted_inv in H as [Hl Hx].
  constructor; [apply IH, Hl|].
  rewrite Forall_fmap in Hx. exact Hx.
Qed.

Lemma StronglySorted_lookup {A} (R : relation A) (l : list A) (i j : nat) (a b : A) :
  StronglySorted R l → l !! i = Some a → l !! j = Some b → (i < j)%nat → R a b.
Proof.
  intros Hl. revert i j. induction Hl as [|x l Hl IH Hx]; intros i j Hi Hj Hij.
  - discriminate.
  - destruct j as [|j]; [lia|]. simpl in Hj. destruct i as [|i]; simpl in Hi.
    + injection Hi as <-. rewrite Forall_forall in Hx.
      apply Hx. eapply list_elem_of_lookup_2, Hj.
    + apply (IH i j); [assumption | assumption | lia].
Qed.

Lemma StronglySorted_weaken {A} (R R' : relation A) (l : list A) :
  (∀ a b, R a b → R' a b) → StronglySorted R l → StronglySorted R' l.
Proof.
  intros HR. induction 1 as [|x l Hl IH Hx]; constructor; [exact IH|].
  eapply Forall_impl; [exact Hx | intros; apply HR; assumption].
Qed.

(** A run that returns has scored every loaded patient, sorted the scored
    patients and written the score log if the engine has a log folder. *)
Lemma sort_patients_Ok (literal_eval : string → result (list string))
    (self self' : Engine) (rows : list PatientData.t) (disk : Disk) (ranked : list Patient) :
  sort_patients literal_eval self rows disk = (self', Ok ranked) →
  ∃ self1 scored,
    score_patients literal_eval self (load_patients rows) = (self1, Ok scored) ∧
    ranked = sort_by_score scored ∧
    self' = (if truthy (log_folder self1) then to_csv self1 else self1).
Proof.
  unfold sort_patients.
  destruct (score_patients literal_eval self (load_patients rows))
    as [self1 [scored|e]] eqn:E; [|discriminate].
  destruct (truthy (log_folder self1) && to_csv_fails disk); [discriminate|].
  destruct (bool_decide _ && close_fails disk); [discriminate|].
  intros [= <- <-]. exists self1, scored. repeat split.
Qed.

(** The ranking of a run that returns is in the final order. *)
Lemma sort_patients_ranked (literal_eval : string → result (list string))
    (self self' : Engine) (rows : list PatientData.t) (disk : Disk) (ranked : list Patient) :
  sort_patients literal_eval self rows disk = (self', Ok ranked) →
  StronglySorted ranks_before ranked ∧
  patient_index <$> ranked ≡ₚ seq 0 (length rows).
Proof.
  intros H. apply sort_patients_Ok in H as (self1 & scored & Hrun & -> & _).
  apply score_patients_Ok in Hrun as (Hscored & _).
  apply scored_as_index in Hscored. rewrite load_patients_index in Hscored.
  split.
  - apply sort_by_score_sorted, StronglySorted_by_index.
    rewrite Hscored. apply StronglySorted_seq.
  - rewrite sort_by_score_perm, Hscored. reflexivity.
Qed.

Lemma violated_set_score (literal_eval : string → result (list string))
    (patient : Patient) (s : Qc) (rule : Rule.t) :
  violated literal_eval (set_score patient s) rule = violated literal_eval patient rule.
Proof. reflexivity. Qed.

(** The final score of a scored patient. *)
Lemma scored_as_final_score (literal_eval : string → result (list string))
    (doc : Rules) (patient scored : Patient) :
  scored_as literal_eval doc patient scored →
  ∃ sum,
    weighted_sum literal_eval scored (inclusion_criterium doc) = Ok sum ∧
    ((∀ c, c ∈ exclusion_criterium doc →
        violated literal_eval scored (ex_rule c) = Ok false) →
     score scored = sum) ∧
    ((∃ c, c ∈ exclusion_criterium doc ∧
        violated literal_eval scored (ex_rule c) = Ok true) →
     score scored = 0%Qc).
Proof.
  intros (sum & verdict & Hsum & Hloop & ->).
  exists sum. rewrite weighted_sum_set_score. split; [exact Hsum|].
  apply exclusion_loop_first in Hloop. destruct verdict as [reason|]; simpl.
  - destruct Hloop as (before & c & after & Hcs & _ & Hc).
    apply exclusion_step_violated in Hc. split; [|reflexivity].
    intros Hnone. specialize (Hnone c).
    rewrite violated_set_score, Hc in Hnone.
    assert (Hin : c ∈ exclusion_criterium doc) by (rewrite Hcs; set_solver).
    specialize (Hnone Hin). discriminate Hnone.
  - split; [reflexivity|].
    intros (c & Hin & Hc). rewrite Forall_forall in Hloop.
    specialize (Hloop c Hin). apply exclusion_step_violated in Hloop.
    rewrite violated_set_score, Hloop in Hc. discriminate Hc.
Qed.

(** ** The scoring run *)

(** C1: in a run that returns, every row yields one ranked patient, and
    the final score of a ranked patient is the sum, over the inclusion
    entries in document order and from 0.0, of (evaluator value) * (weight)
    when no exclusion rule is violated, and exactly 0.0 when some exclusion
    rule is violated. *)
Theorem final_score_weighted_sum_or_zero
    (literal_eval : string → result (list string))
    (self self' : Engine) (rows : list PatientData.t) (disk : Disk) (ranked : list Patient) :
  sort_patients literal_eval self rows disk = (self', Ok ranked) →
  length ranked = length rows ∧
  ∀ patient, patient ∈ ranked →
    ∃ sum,
      weighted_sum literal_eval patient (inclusion_criterium (rules self)) = Ok sum ∧
      ((∀ c, c ∈ exclusion_criterium (rules self) →
          violated literal_eval patient (ex_rule c) = Ok false) →
       score patient = sum) ∧
      ((∃ c, c ∈ exclusion_criterium (rules self) ∧
          violated literal_eval patient (ex_rule c) = Ok true) →
       score patient = 0%Qc).
Proof.
  intros H. apply sort_patients_Ok in H as (self1 & scored & Hrun & -> & _).
  pose proof (score_patients_length _ _ _ _ _ Hrun) as Hlen.
  apply score_patients_Ok in Hrun as (Hscored & _).
  split.
  - rewrite sort_by_score_perm, Hlen. unfold load_patients. apply length_imap.
  - intros patient Hin. rewrite sort_by_score_perm in Hin.
    apply list_elem_of_lookup in Hin as [i Hi].
    destruct (Forall2_lookup_r _ _ _ _ _ Hscored Hi) as (loaded & _ & Hp).
    eapply scored_as_final_score, Hp.
Qed.

(** C5: the returned list is sorted by score, larger first; two patients
    with the same final score stand in the order of their patient_index,
    that is, of ingestion; and the list holds every patient of the table
    once. *)
Theorem ranking_descending_and_stable
    (literal_eval : string → result (list string))
    (self self' : Engine) (rows : list PatientData.t) (disk : Disk) (ranked : list Patient) :
  sort_patients literal_eval self rows disk = (self', Ok ranked) →
  StronglySorted (λ a b, (score b ≤ score a)%Qc) ranked ∧
  (∀ i j a b, ranked !! i = Some a → ranked !! j = Some b → (i < j)%nat →
     score a = score b → (patient_index a < patient_index b)%nat) ∧
  patient_index <$> ranked ≡ₚ seq 0 (length rows).
Proof.
  intros H. apply sort_patients_ranked in H as [Hsorted Hperm].
  split; [|split].
  - eapply StronglySorted_weaken; [apply ranks_before_le | exact Hsorted].
  - intros i j a b Hi Hj Hij Heq.
    destruct (StronglySorted_lookup _ _ _ _ _ _ Hsorted Hi Hj Hij) as [Hlt | [_ Hidx]].
    + rewrite Heq in Hlt. destruct (Qclt_not_eq _ _ Hlt eq_refl).
    + exact Hidx.
  - exact Hperm.
Qed.

(** C8: a run of a new engine records one score entry per patient, in
    ingestion order and with the final score, whether the patient was
    excluded or not; the returned ranking is the sorted list of the same
    patients; and the score log that the run persists (when the engine has
    a log folder) is that list of entries, in ingestion order. *)
Theorem score_log_in_ingestion_order
    (literal_eval : string → result (list string))
    (doc : Rules) (folder : option string) (self' : Engine)
    (rows : list PatientData.t) (disk : Disk) (ranked : list Patient) :
  sort_patients literal_eval (Engine_init doc folder) rows disk = (self', Ok ranked) →
  ∃ scored,
    Forall2 (scored_as literal_eval doc) (load_patients rows) scored ∧
    ranked = sort_by_score scored ∧
    patient_scores self' = score_entry <$> scored ∧
    ScoreEntry.patient_index <$> patient_scores self' = seq 0 (length rows) ∧
    scores_log self' = if truthy folder then Some (score_entry <$> scored) else None.
Proof.
  intros H. apply sort_patients_Ok in H as (self1 & scored & Hrun & -> & ->).
  apply score_patients_Ok in Hrun as (Hscored & _ & Hfolder & Hlog & Hscores & _).
  assert (Hdoc : rules (Engine_init doc folder) = doc)
    by (unfold Engine_init; destruct (truthy folder); reflexivity).
  assert (Hf0 : log_folder (Engine_init doc folder) = folder)
    by (unfold Engine_init; destruct (truthy folder); reflexivity).
  assert (Hs0 : patient_scores (Engine_init doc folder) = [])
    by (unfold Engine_init; destruct (truthy folder); reflexivity).
  assert (Hl0 : scores_log (Engine_init doc folder) = None)
    by (unfold Engine_init; destruct (truthy folder); reflexivity).
  rewrite Hdoc in Hscored. rewrite Hf0 in Hfolder. rewrite Hs0 in Hscores.
  rewrite Hl0 in Hlog. simpl in Hscores.
  assert (Hidx : ScoreEntry.patient_index <$> (score_entry <$> scored) = seq 0 (length rows)).
  { rewrite <- list_fmap_compose.
    rewrite <- load_patients_index, <- (scored_as_index _ _ _ _ Hscored).
    reflexivity. }
  exists scored. rewrite Hfolder.
  destruct (truthy folder); simpl; rewrite Hscores; repeat split; assumption.
Qed.

(** ** Exclusion *)

Lemma exclusion_step_None_violated (literal_eval : string → result (list string))
    (patient : Patient) (c : ExclusionCriterium) :
  exclusion_step literal_eval patient c = Ok None →
  violated literal_eval patient (ex_rule c) = Ok false.
Proof. intros H. apply exclusion_step_violated in H. exact H. Qed.

Lemma exclusion_step_Some_violated (literal_eval : string → result (list string))
    (patient : Patient) (c : ExclusionCriterium) (reason : ExclusionReason) :
  exclusion_step literal_eval patient c = Ok (Some reason) →
  violated literal_eval patient (ex_rule c) = Ok true.
Proof. intros H. apply exclusion_step_violated in H. exact H. Qed.

(** C2, with the log file it needs: for a scored patient, either no
    exclusion rule is violated and nothing is written, or the rules before
    some rule [c] are not violated, [c] is violated (an age or gender rule:
    evaluator equal to 0.0; a medications or preexisting-conditions rule:
    evaluator above 0.0), the score is 0.0 and, whatever the rules after
    [c] are, exactly one line, the one of [c], is written to the exclusion
    log file if the engine has one; an engine without a log file writes no
    line. *)
Theorem exclusion_stops_at_first_violation
    (literal_eval : string → result (list string))
    (self self' : Engine) (patient patient' : Patient) :
  score_patient literal_eval self patient = (self', Ok patient') →
  (Forall (λ c, violated literal_eval patient (ex_rule c) = Ok false)
     (exclusion_criterium (rules self)) ∧
   exclusion_log_file self' = exclusion_log_file self)
  ∨
  (∃ before c after reason,
     exclusion_criterium (rules self) = before ++ c :: after ∧
     Forall (λ c', violated literal_eval patient (ex_rule c') = Ok false) before ∧
     violated literal_eval patient (ex_rule c) = Ok true ∧
     exclusion_step literal_eval patient c = Ok (Some reason) ∧
     reason_type reason = Rule.type (ex_rule c) ∧
     reason_index reason = patient_index patient ∧
     score patient' = 0%Qc ∧
     exclusion_log_file self'
     = (λ lines, lines ++ [reason]) <$> exclusion_log_file self).
Proof.
  intros H.
  apply score_patient_Ok in H as (sum & verdict & _ & Hloop & -> & ->).
  apply exclusion_loop_first in Hloop. destruct verdict as [reason|].
  - right. destruct Hloop as (before & c & after & Hcs & Hbefore & Hc).
    exists before, c, after, reason.
    destruct (exclusion_step_reason _ _ _ _ Hc) as [Htype Hindex].
    repeat split; try assumption.
    + eapply Forall_impl; [exact Hbefore|]. intros c'. apply exclusion_step_None_violated.
    + eapply exclusion_step_Some_violated, Hc.
  - left. split; [|reflexivity].
    eapply Forall_impl; [exact Hloop|]. intros c'. apply exclusion_step_None_violated.
Qed.

Lemma exclusion_stops_at_first_violation_witness :
  let self := Engine_init veto_doc (Some "logs") in
  let patient := Patient_init 0 vetoed_row in
  ∃ reason,
    exclusion_log_file (score_patient list_literal self patient).1 = Some [reason] ∧
    reason_type reason = "age".
Proof.
  intros self patient.
  destruct (score_patient list_literal self patient) as [self' [patient'|e]] eqn:E;
    [|vm_compute in E; discriminate E].
  destruct (exclusion_stops_at_first_violation list_literal self self' patient patient' E)
    as [[Hnone _] | (before & c & after & reason & Hcs & Hbefore & _ & _ & Htype & _ & _ & Hlog)].
  - apply Forall_cons in Hnone as [Hage _]. vm_compute in Hage. discriminate Hage.
  - exists reason. split; [exact Hlog|].
    destruct before as [|c0 before].
    + injection Hcs as <- _. exact Htype.
    + apply Forall_cons in Hbefore as [Hage _]. injection Hcs as <- _.
      vm_compute in Hage. discriminate Hage.
Defined.

(** C2 as it is stated fails without a log folder: the patient is excluded
    (both exclusion rules are violated, the score is 0.0) and no line is
    written, there being no exclusion log. *)
Lemma exclusion_without_log_file_writes_no_line :
  let self := Engine_init veto_doc None in
  let patient := Patient_init 0 vetoed_row in
  let out := score_patient list_literal self patient in
  violated list_literal patient (age_rule (Some 50) None) = Ok true ∧
  out.2 = Ok (set_score patient 0%Qc) ∧
  exclusion_log_file out.1 = None ∧
  ¬ ∃ lines reason, exclusion_log_file out.1 = Some (lines ++ [reason]).
Proof.
  repeat split; try reflexivity.
  intros (lines & reason & H). discriminate H.
Qed.

(** ** Failure of the log writes *)

Lemma is_Some_fmap_bool {A B} (f : A → B) (o : option A) :
  bool_decide (is_Some (f <$> o)) = bool_decide (is_Some o).
Proof. destruct o; reflexivity. Qed.

(** C9 as the code has it: when the scoring loop has completed and
    writing the score CSV or closing the exclusion log fails, the run
    raises [OSError] and returns no ranking; the score entries stay in the
    engine object only. *)
Theorem log_write_failure_discards_ranking
    (literal_eval : string → result (list string))
    (self self1 : Engine) (rows : list PatientData.t) (disk : Disk) (scored : list Patient) :
  score_patients literal_eval self (load_patients rows) = (self1, Ok scored) →
  (truthy (log_folder self) && to_csv_fails disk)
  || (bool_decide (is_Some (exclusion_log_file self)) && close_fails disk) = true →
  ∃ self',
    sort_patients literal_eval self rows disk = (self', Raise OSError) ∧
    patient_scores self' = patient_scores self ++ (score_entry <$> scored).
Proof.
  intros Hrun Hfail. unfold sort_patients. rewrite Hrun.
  apply score_patients_Ok in Hrun as (_ & _ & Hfolder & _ & Hscores & Hfile).
  rewrite Hfolder.
  destruct (truthy (log_folder self) && to_csv_fails disk) eqn:Hcsv; simpl in Hfail.
  - exists self1. split; [reflexivity | exact Hscores].
  - assert (Hopen : bool_decide (is_Some (exclusion_log_file
              (if truthy (log_folder self) then to_csv self1 else self1)))
            = bool_decide (is_Some (exclusion_log_file self))).
    { replace (exclusion_log_file (if truthy (log_folder self) then to_csv self1 else self1))
        with (exclusion_log_file self1) by (destruct (truthy (log_folder self)); reflexivity).
      rewrite Hfile. apply is_Some_fmap_bool. }
    rewrite Hopen, Hfail.
    eexists. split; [reflexivity|].
    destruct (truthy (log_folder self)); exact Hscores.
Qed.

Lemma log_write_failure_discards_ranking_witness :
  (sort_patients list_literal (Engine_init trial_doc (Some "logs")) trial_rows
     (mkDisk true false)).2 = Raise OSError.
Proof.
  destruct (score_patients list_literal (Engine_init trial_doc (Some "logs"))
              (load_patients trial_rows)) as [self1 [scored|e]] eqn:E;
    [|vm_compute in E; discriminate E].
  destruct (log_write_failure_discards_ranking list_literal
              (Engine_init trial_doc (Some "logs")) self1 trial_rows
              (mkDisk true false) scored E eq_refl) as (self' & H & _).
  rewrite H. reflexivity.
Defined.

(** C9 as it is stated fails: the four patients are scored, writing the
    score CSV fails, and the run ends in [OSError] without returning the
    ranking. *)
Lemma failed_csv_write_returns_no_ranking :
  let self := Engine_init trial_doc (Some "logs") in
  (∃ self1 scored,
     score_patients list_literal self (load_patients trial_rows) = (self1, Ok scored) ∧
     length scored = 4%nat) ∧
  (sort_patients list_literal self trial_rows (mkDisk true false)).2 = Raise OSError ∧
  ¬ ∃ ranked,
      (sort_patients list_literal self trial_rows (mkDisk true false)).2 = Ok ranked.
Proof.
  intros self. split; [|split].
  - destruct (score_patients list_literal self (load_patients trial_rows))
      as [self1 [scored|e]] eqn:E; [|vm_compute in E; discriminate E].
    exists self1, scored. split; [reflexivity|].
    apply score_patients_length in E. exact E.
  - vm_compute. reflexivity.
  - intros (ranked & H). vm_compute in H. discriminate H.
Qed.

(** ** Rules without an evaluator *)

Lemma unsupported_type (rule : Rule.t) :
  supported rule = false →
  Rule.type rule ≠ "age" ∧ Rule.type rule ≠ "gender" ∧
  Rule.type rule ≠ "medications" ∧ Rule.type rule ≠ "preexisting_conditions".
Proof.
  unfold supported, supported_types. intros H.
  apply bool_decide_eq_false_1 in H.
  repeat split; intros E; apply H; rewrite E; set_solver.
Qed.

Lemma inclusion_step_unsupported (literal_eval : string → result (list string))
    (patient : Patient) (c : InclusionCriterium) (score : Qc) :
  supported (in_rule c) = false →
  inclusion_step literal_eval patient c score = Ok score.
Proof.
  intros H. apply unsupported_type in H as (N1 & N2 & N3 & N4).
  unfold inclusion_step.
  destruct (String.eqb_spec (Rule.type (in_rule c)) "age"); [contradiction|].
  destruct (String.eqb_spec (Rule.type (in_rule c)) "gender"); [contradiction|].
  destruct (String.eqb_spec (Rule.type (in_rule c)) "medications"); [contradiction|].
  destruct (String.eqb_spec (Rule.type (in_rule c)) "preexisting_conditions");
    [contradiction|].
  reflexivity.
Qed.

Lemma exclusion_step_unsupported (literal_eval : string → result (list string))
    (patient : Patient) (c : ExclusionCriterium) :
  supported (ex_rule c) = false →
  exclusion_step literal_eval patient c = Ok None.
Proof.
  intros H. apply unsupported_type in H as (N1 & N2 & N3 & N4).
  unfold exclusion_step.
  destruct (String.eqb_spec (Rule.type (ex_rule c)) "age"); [contradiction|].
  destruct (String.eqb_spec (Rule.type (ex_rule c)) "gender"); [contradiction|].
  destruct (String.eqb_spec (Rule.type (ex_rule c)) "medications"); [contradiction|].
  destruct (String.eqb_spec (Rule.type (ex_rule c)) "preexisting_conditions");
    [contradiction|].
  reflexivity.
Qed.

Lemma inclusion_loop_drop_unsupported (literal_eval : string → result (list string))
    (patient : Patient) (cs : list InclusionCriterium) (score : Qc) :
  inclusion_loop literal_eval patient
    (filter (λ c, supported (in_rule c) = true) cs) score
  = inclusion_loop literal_eval patient cs score.
Proof.
  revert score. induction cs as [|c cs IH]; intros score; [reflexivity|].
  rewrite filter_cons. destruct (supported (in_rule c)) eqn:E.
  - rewrite decide_True by reflexivity. simpl.
    destruct (inclusion_step literal_eval patient c score); simpl;
      [apply IH | reflexivity].
  - rewrite decide_False by discriminate. simpl.
    rewrite inclusion_step_unsupported by exact E. simpl. apply IH.
Qed.

Lemma exclusion_loop_drop_unsupported (literal_eval : string → result (list string))
    (patient : Patient) (cs : list ExclusionCriterium) :
  exclusion_loop literal_eval patient
    (filter (λ c, supported (ex_rule c) = true) cs)
  = exclusion_loop literal_eval patient cs.
Proof.
  induction cs as [|c cs IH]; [reflexivity|].
  rewrite filter_cons. destruct (supported (ex_rule c)) eqn:E.
  - rewrite decide_True by reflexivity. simpl.
    destruct (exclusion_step literal_eval patient c) as [[reason|]|e]; simpl;
      [reflexivity | apply IH | reflexivity].
  - rewrite decide_False by discriminate. simpl.
    rewrite exclusion_step_unsupported by exact E. simpl. apply IH.
Qed.

Lemma score_patient_drop_unsupported (literal_eval : string → result (list string))
    (self : Engine) (doc : Rules) (patient : Patient) :
  rules self = drop_unsupported doc →
  score_patient literal_eval (with_rules self doc) patient
  = ((with_rules (score_patient literal_eval self patient).1 doc),
     (score_patient literal_eval self patient).2).
Proof.
  intros Hrules. unfold score_patient. rewrite Hrules. simpl.
  rewrite inclusion_loop_drop_unsupported.
  destruct (inclusion_loop _ _ _ _) as [sum|e]; [|reflexivity].
  rewrite !exclusion_loop_set_score, exclusion_loop_drop_unsupported.
  destruct (exclusion_loop _ _ _) as [[reason|]|e]; reflexivity.
Qed.

Lemma score_patient_rules (literal_eval : string → result (list string))
    (self : Engine) (patient : Patient) :
  rules (score_patient literal_eval self patient).1 = rules self.
Proof.
  unfold score_patient.
  destruct (inclusion_loop _ _ _ _) as [sum|e]; [|reflexivity].
  destruct (exclusion_loop _ _ _) as [[reason|]|e]; reflexivity.
Qed.

Lemma score_patients_drop_unsupported (literal_eval : string → result (list string))
    (self : Engine) (doc : Rules) (patients : list Patient) :
  rules self = drop_unsupported doc →
  score_patients literal_eval (with_rules self doc) patients
  = ((with_rules (score_patients literal_eval self patients).1 doc),
     (score_patients literal_eval self patients).2).
Proof.
  revert self. induction patients as [|patient rest IH]; intros self Hrules; simpl;
    [reflexivity|].
  rewrite score_patient_drop_unsupported by exact Hrules.
  pose proof (score_patient_rules literal_eval self patient) as Hr.
  destruct (score_patient literal_eval self patient) as [self1 [patient'|e]]; simpl in *;
    [|reflexivity].
  rewrite IH by (rewrite Hr; exact Hrules).
  destruct (score_patients literal_eval self1 rest) as [self2 [rest'|e]]; reflexivity.
Qed.

Lemma sort_patients_drop_unsupported (literal_eval : string → result (list string))
    (self : Engine) (doc : Rules) (rows : list PatientData.t) (disk : Disk) :
  rules self = drop_unsupported doc →
  sort_patients literal_eval (with_rules self doc) rows disk
  = ((with_rules (sort_patients literal_eval self rows disk).1 doc),
     (sort_patients literal_eval self rows disk).2).
Proof.
  intros Hrules. unfold sort_patients.
  rewrite score_patients_drop_unsupported by exact Hrules.
  destruct (score_patients literal_eval self (load_patients rows))
    as [self1 [scored|e]]; simpl; [|reflexivity].
  destruct (truthy (log_folder self1) && to_csv_fails disk); [reflexivity|].
  destruct (truthy (log_folder self1)); simpl;
    destruct (bool_decide _ && close_fails disk); reflexivity.
Qed.

(** C7: a rule whose type is none of the four evaluator types (such as
    "other") raises nothing: as an inclusion entry it leaves the score as
    it is (it contributes 0.0), as an exclusion entry no evaluator runs and
    it is not violated; and the run on a rule document gives what the run
    on the document without such rules gives: the same ranking or the same
    exception, the same score entries and the same log lines. *)
Theorem unsupported_rule_contributes_nothing
    (literal_eval : string → result (list string)) :
  (∀ patient c score, supported (in_rule c) = false →
     inclusion_step literal_eval patient c score = Ok score ∧
     evaluator_value literal_eval patient (in_rule c) = Ok 0%Qc) ∧
  (∀ patient c, supported (ex_rule c) = false →
     exclusion_step literal_eval patient c = Ok None ∧
     violated literal_eval patient (ex_rule c) = Ok false) ∧
  (∀ doc folder rows disk,
     sort_patients literal_eval (Engine_init doc folder) rows disk
     = ((with_rules
           (sort_patients literal_eval (Engine_init (drop_unsupported doc) folder) rows disk).1
           doc),
        (sort_patients literal_eval (Engine_init (drop_unsupported doc) folder) rows disk).2)).
Proof.
  split; [|split].
  - intros patient c score H. split; [apply inclusion_step_unsupported, H|].
    pose proof (inclusion_step_unsupported literal_eval patient c 0%Qc H) as Hstep.
    apply unsupported_type in H as (N1 & N2 & N3 & N4).
    unfold evaluator_value.
    destruct (String.eqb_spec (Rule.type (in_rule c)) "age"); [contradiction|].
    destruct (String.eqb_spec (Rule.type (in_rule c)) "gender"); [contradiction|].
    destruct (String.eqb_spec (Rule.type (in_rule c)) "medications"); [contradiction|].
    destruct (String.eqb_spec (Rule.type (in_rule c)) "preexisting_conditions");
      [contradiction|].
    reflexivity.
  - intros patient c H. split; [apply exclusion_step_unsupported, H|].
    apply exclusion_step_None_violated, exclusion_step_unsupported, H.
  - intros doc folder rows disk.
    rewrite <- (sort_patients_drop_unsupported literal_eval
                  (Engine_init (drop_unsupported doc) folder) doc rows disk).
    + unfold Engine_init. destruct (truthy folder); reflexivity.
    + unfold Engine_init. destruct (truthy folder); reflexivity.
Qed.

Lemma unsupported_rule_contributes_nothing_witness :
  inclusion_step list_literal (Patient_init 0 vetoed_row)
    (mkInclusion other_rule 1%Qc) half = Ok half ∧
  exclusion_step list_literal (Patient_init 0 vetoed_row)
    (mkExclusion other_rule) = Ok None ∧
  (sort_patients list_literal (Engine_init trial_doc_other (Some "logs")) trial_rows
     (mkDisk false false)).2
  = (sort_patients list_literal (Engine_init trial_doc (Some "logs")) trial_rows
       (mkDisk false false)).2.
Proof.
  destruct (unsupported_rule_contributes_nothing list_literal) as (Hin & Hex & Hrun).
  split; [|split].
  - apply (Hin (Patient_init 0 vetoed_row) (mkInclusion other_rule 1%Qc) half).
    reflexivity.
  - apply (Hex (Patient_init 0 vetoed_row) (mkExclusion other_rule)). reflexivity.
  - rewrite (Hrun trial_doc_other (Some "logs") trial_rows (mkDisk false false)).
    reflexivity.
Defined.

(** C10: an exclusion rule of type medications or preexisting_conditions
    with an empty target list never excludes: both evaluators give 0.0 on
    the empty list (the second one whenever the patient's cell decodes), the
    pass over the rule never takes the violation branch, and an exclusion in
    a document that holds the rule comes from a rule before or after it. *)
Theorem empty_target_list_never_excludes
    (literal_eval : string → result (list string))
    (patient : Patient) (c : ExclusionCriterium) :
  (Rule.type (ex_rule c) = "medications" ∧ Rule.medications (ex_rule c) = Some [])
  ∨ (Rule.type (ex_rule c) = "preexisting_conditions" ∧
     Rule.icd9_codes (ex_rule c) = Some []) →
  medications patient [] = 0%Qc ∧
  (∀ codes,
     literal_eval (lower (strip (PatientData.icd9_codes (patient_data patient)))) = Ok codes →
     preexisting_conditions literal_eval patient [] = Ok 0%Qc) ∧
  (∀ reason, exclusion_step literal_eval patient c ≠ Ok (Some reason)) ∧
  (∀ before after reason,
     exclusion_loop literal_eval patient (before ++ c :: after) = Ok (Some reason) →
     exclusion_loop literal_eval patient before = Ok (Some reason)
     ∨ (exclusion_loop literal_eval patient before = Ok None ∧
        exclusion_loop literal_eval patient after = Ok (Some reason))).
Proof.
  intros Hempty.
  assert (Hstep : ∀ reason, exclusion_step literal_eval patient c ≠ Ok (Some reason)).
  { intros reason. unfold exclusion_step.
    destruct Hempty as [[Htype Hms] | [Htype Hcs]]; rewrite Htype; simpl.
    - rewrite Hms. simpl. discriminate.
    - rewrite Hcs. simpl.
      destruct (preexisting_conditions literal_eval patient []) as [v|e] eqn:E; simpl;
        [|discriminate].
      apply preexisting_conditions_empty in E. subst v.
      rewrite bool_decide_eq_false_2 by (intros H; exact (Qclt_not_eq _ _ H eq_refl)).
      discriminate. }
  split; [reflexivity|]. split; [|split; [exact Hstep|]].
  - intros codes Hcodes. unfold preexisting_conditions. rewrite Hcodes. reflexivity.
  - intros before after reason. rewrite exclusion_loop_app.
    destruct (exclusion_loop literal_eval patient before) as [[r|]|e];
      [intros H; left; exact H | | discriminate].
    simpl.
    destruct (exclusion_step literal_eval patient c) as [[r|]|e] eqn:E; simpl.
    + destruct (Hstep r eq_refl).
    + intros H. right. split; [reflexivity | exact H].
    + discriminate.
Qed.

Lemma empty_target_list_never_excludes_witness :
  medications (Patient_init 0 vetoed_row) [] = 0%Qc ∧
  exclusion_loop list_literal (Patient_init 0 vetoed_row)
    [mkExclusion (medications_rule []); mkExclusion (conditions_rule [])] = Ok None.
Proof.
  split.
  - apply (empty_target_list_never_excludes list_literal (Patient_init 0 vetoed_row)
             (mkExclusion (medications_rule []))).
    left. split; reflexivity.
  - destruct (exclusion_loop list_literal (Patient_init 0 vetoed_row)
                [mkExclusion (medications_rule []); mkExclusion (conditions_rule [])])
      as [[reason|]|e] eqn:E; [exfalso | reflexivity | vm_compute in E; discriminate E].
    destruct (empty_target_list_never_excludes list_literal (Patient_init 0 vetoed_row)
                (mkExclusion (medications_rule [])) (or_introl (conj eq_refl eq_refl)))
      as (_ & _ & _ & Hloop).
    destruct (Hloop [] [mkExclusion (conditions_rule [])] reason E) as [H | [_ H]].
    + discriminate H.
    + destruct (empty_target_list_never_excludes list_literal (Patient_init 0 vetoed_row)
                  (mkExclusion (conditions_rule [])) (or_intror (conj eq_refl eq_refl)))
        as (_ & _ & _ & Hloop').
      destruct (Hloop' [] [] reason H) as [H' | [_ H']]; discriminate H'.
Defined.

(** ** A run on well-formed input returns *)

Section Returns.
Variable literal_eval : string → result (list string).








End Returns.

(** ** The run on the sample trial *)

Lemma final_score_weighted_sum_or_zero_witness :
  ∃ self' ranked,
    sort_patients list_literal (Engine_init trial_doc (Some "logs")) trial_rows
      (mkDisk false false) = (self', Ok ranked) ∧
    length ranked = 4%nat.
Proof.
  destruct (sort_patients list_literal (Engine_init trial_doc (Some "logs")) trial_rows
              (mkDisk false false)) as [self' [ranked|e]] eqn:E;
    [|vm_compute in E; discriminate E].
  exists self', ranked. split; [reflexivity|].
  destruct (final_score_weighted_sum_or_zero _ _ _ _ _ _ E) as [Hlen _].
  exact Hlen.
Defined.

Lemma ranking_descending_and_stable_witness :
  ∃ self' ranked,
    sort_patients list_literal (Engine_init trial_doc (Some "logs")) trial_rows
      (mkDisk false false) = (self', Ok ranked) ∧
    StronglySorted (λ a b, (score b ≤ score a)%Qc) ranked ∧
    patient_index <$> ranked ≡ₚ [0; 1; 2; 3]%nat.
Proof.
  destruct (sort_patients list_literal (Engine_init trial_doc (Some "logs")) trial_rows
              (mkDisk false false)) as [self' [ranked|e]] eqn:E;
    [|vm_compute in E; discriminate E].
  exists self', ranked. split; [reflexivity|].
  destruct (ranking_descending_and_stable _ _ _ _ _ _ E) as (Hsorted & _ & Hperm).
  split; [exact Hsorted | exact Hperm].
Defined.

Lemma score_log_in_ingestion_order_witness :
  ∃ self' ranked,
    sort_patients list_literal (Engine_init trial_doc (Some "logs")) trial_rows
      (mkDisk false false) = (self', Ok ranked) ∧
    ScoreEntry.patient_index <$> patient_scores self' = [0; 1; 2; 3]%nat ∧
    scores_log self' = Some (patient_scores self').
Proof.
  destruct (sort_patients list_literal (Engine_init trial_doc (Some "logs")) trial_rows
              (mkDisk false false)) as [self' [ranked|e]] eqn:E;
    [|vm_compute in E; discriminate E].
  exists self', ranked. split; [reflexivity|].
  destruct (score_log_in_ingestion_order _ _ _ _ _ _ _ E)
    as (scored & _ & _ & Hscores & Hidx & Hlog).
  split; [exact Hidx|]. rewrite Hlog, Hscores. reflexivity.
Defined.

(** The ranking of the sample trial: the patient with both inclusion rules
    first, the two patients that tie at one half in ingestion order, the
    excluded patient last; the score log keeps the ingestion order. *)
Lemma trial_ranking :
  let out := sort_patients list_literal (Engine_init trial_doc (Some "logs"))
               trial_rows (mkDisk false false) in
  (match out.2 with
   | Ok ranked => patient_index <$> ranked
   | Raise _ => []
   end) = [1; 0; 3; 2]%nat ∧
  ScoreEntry.patient_index <$> patient_scores out.1 = [0; 1; 2; 3]%nat ∧
  reason_index <$> default [] (exclusion_log_file out.1) = [2]%nat.
Proof. repeat split. Qed.

(** ** Exclusion rule by rule *)

Lemma Qc_one_not_zero : 1%Qc ≠ 0%Qc.
Proof. intros H. discriminate H. Qed.

(** X1: a gender exclusion rule with code 0 excludes exactly the patients whose
    gender cell is not the text M (compared as it stands, case included),
    with code 1 those whose cell is not F, with code 2 nobody, and with any
    other code everybody. *)
Theorem gender_exclusion_rule
    (literal_eval : string → result (list string))
    (patient : Patient) (c : ExclusionCriterium) (g : Z) :
  Rule.type (ex_rule c) = "gender" → Rule.gender (ex_rule c) = Some g →
  let excluded := ∃ reason, exclusion_step literal_eval patient c = Ok (Some reason) in
  let cell := PatientData.gender (patient_data patient) in
  (g = 0 → (excluded ↔ cell ≠ "M")) ∧
  (g = 1 → (excluded ↔ cell ≠ "F")) ∧
  (g = 2 → ¬ excluded) ∧
  (g ≠ 0 → g ≠ 1 → g ≠ 2 → excluded).
Proof.
  intros Htype Hkey excluded cell. unfold excluded, exclusion_step.
  rewrite Htype, Hkey. simpl. unfold gender. fold cell.
  split; [|split; [|split]].
  - intros ->. simpl. destruct (String.eqb_spec cell "M") as [E|N]; simpl; split.
    + intros [reason H]. discriminate H.
    + intros N. destruct (N E).
    + intros _. exact N.
    + intros _. eexists. reflexivity.
  - intros ->. simpl. destruct (String.eqb_spec cell "F") as [E|N]; simpl; split.
    + intros [reason H]. discriminate H.
    + intros N. destruct (N E).
    + intros _. exact N.
    + intros _. eexists. reflexivity.
  - intros -> [reason H]. simpl in H. discriminate H.
  - intros N0 N1 N2.
    rewrite (bool_decide_eq_false_2 (g = 0)), (bool_decide_eq_false_2 (g = 1)),
      (bool_decide_eq_false_2 (g = 2)) by assumption.
    simpl. eexists. reflexivity.
Qed.

Lemma age_zero_iff (patient : Patient) (min max : option Z) :
  age patient min max = 0%Qc ↔
  (∃ m, min = Some m ∧ PatientData.age (patient_data patient) < m)
  ∨ (∃ m, max = Some m ∧ m < PatientData.age (patient_data patient)).
Proof.
  unfold age. set (a := PatientData.age (patient_data patient)).
  destruct min as [lo|], max as [hi|]; repeat case_bool_decide;
    (split;
     [ intros Hage; try discriminate Hage;
       first [ left; eexists; split; [reflexivity | lia]
             | right; eexists; split; [reflexivity | lia] ]
     | intros [(m & Hm & Hlt) | (m & Hm & Hlt)]; simplify_eq;
       try reflexivity; lia ]).
Qed.

(** X2: an age exclusion rule excludes exactly the patients whose age is below
    a given min or above a given max; without bounds it excludes nobody,
    with a max below the min everybody. *)
Theorem age_exclusion_rule
    (literal_eval : string → result (list string))
    (patient : Patient) (c : ExclusionCriterium) :
  Rule.type (ex_rule c) = "age" →
  let excluded := ∃ reason, exclusion_step literal_eval patient c = Ok (Some reason) in
  let a := PatientData.age (patient_data patient) in
  let min := Rule.min (ex_rule c) in
  let max := Rule.max (ex_rule c) in
  (excluded ↔ (∃ m, min = Some m ∧ a < m) ∨ (∃ m, max = Some m ∧ m < a)) ∧
  (min = None → max = None → ¬ excluded) ∧
  (∀ lo hi, min = Some lo → max = Some hi → hi < lo → excluded).
Proof.
  intros Htype excluded a min max.
  assert (Hiff : excluded ↔ (∃ m, min = Some m ∧ a < m) ∨ (∃ m, max = Some m ∧ m < a)).
  { subst excluded a min max. rewrite <- age_zero_iff.
    unfold exclusion_step. rewrite Htype. simpl.
    case_bool_decide as H; split.
    - intros _. exact H.
    - intros _. eexists. reflexivity.
    - intros [reason Hr]. discriminate Hr.
    - intros H'. destruct (H H'). }
  split; [exact Hiff|]. split.
  - intros Hmin Hmax. rewrite Hiff, Hmin, Hmax.
    intros [(m & [=] & _) | (m & [=] & _)].
  - intros lo hi Hmin Hmax Hlt. apply Hiff. rewrite Hmin, Hmax.
    destruct (decide (a < lo)) as [H|H].
    + left. exists lo. split; [reflexivity | exact H].
    + right. exists hi. split; [reflexivity | lia].
Qed.

Lemma Qc_of_nat_pos_iff (n : nat) : (0 < Qc_of_nat n)%Qc ↔ (0 < n)%nat.
Proof.
  split; [|apply Qc_of_nat_pos].
  unfold Qc_of_nat, Qclt. simpl. unfold Qlt. simpl. lia.
Qed.

Lemma Qc_of_nat_inj (m n : nat) : Qc_of_nat m = Qc_of_nat n → m = n.
Proof.
  intros H. apply (f_equal (λ q : Qc, Qnum (this q))) in H. simpl in H. lia.
Qed.

Lemma ratio_pos_iff (m n : nat) :
  (0 < n)%nat → (0 < Qc_of_nat m / Qc_of_nat n)%Qc ↔ (0 < m)%nat.
Proof.
  intros Hn. rewrite <- Qc_of_nat_pos_iff.
  assert (Hinv : (0 < / Qc_of_nat n)%Qc) by (apply Qcinv_pos, Qc_of_nat_pos, Hn).
  unfold Qcdiv.
  rewrite (Qcmult_lt_mono_pos_r 0 (Qc_of_nat m) _ Hinv), Qcmult_0_l. reflexivity.
Qed.

Lemma ratio_one_iff (m n : nat) :
  (0 < n)%nat → (Qc_of_nat m / Qc_of_nat n)%Qc = 1%Qc ↔ m = n.
Proof.
  intros Hn.
  assert (Hne : Qc_of_nat n ≠ 0%Qc).
  { intros E. apply Qc_of_nat_pos in Hn. rewrite E in Hn.
    exact (Qclt_not_eq _ _ Hn eq_refl). }
  split.
  - intros H. apply Qc_of_nat_inj.
    rewrite <- (Qcmult_1_l (Qc_of_nat n)), <- H.
    unfold Qcdiv. rewrite <- Qcmult_assoc, Qcmult_inv_l, Qcmult_1_r by exact Hne.
    reflexivity.
  - intros ->. unfold Qcdiv. apply Qcmult_inv_r, Hne.
Qed.

Lemma sum_list_pos (l : list nat) : (0 < sum_list l)%nat ↔ ∃ n, n ∈ l ∧ (0 < n)%nat.
Proof.
  induction l as [|n l IH]; simpl.
  - split; [lia | intros (n & H & _); inversion H].
  - split.
    + intros H. destruct (decide (0 < n)%nat) as [Hn|Hn].
      * exists n. split; [left | exact Hn].
      * destruct IH as [IH _]. destruct IH as (k & Hk & Hpos); [lia|].
        exists k. split; [right; exact Hk | exact Hpos].
    + intros (k & Hk & Hpos). apply elem_of_cons in Hk as [->|Hk]; [lia|].
      assert (0 < sum_list l)%nat; [|lia]. apply IH. exists k. split; assumption.
Qed.

Lemma matching_entries_pos (med : string) (entries : list string) :
  (0 < matching_entries med entries)%nat ↔
  ∃ e, e ∈ entries ∧ contains (strip (lower med)) (strip (lower e)) = true.
Proof.
  unfold matching_entries. split.
  - intros H.
    destruct (filter (λ entry, contains (strip (lower med)) (strip (lower entry)) = true) entries)
      as [|e l] eqn:E; [simpl in H; lia|].
    assert (He : e ∈ filter (λ entry, contains (strip (lower med)) (strip (lower entry)) = true) entries)
      by (rewrite E; left).
    apply list_elem_of_filter in He as [Hc He]. exists e. split; assumption.
  - intros (e & He & Hc).
    assert (H : e ∈ filter (λ entry, contains (strip (lower med)) (strip (lower entry)) = true) entries)
      by (apply list_elem_of_filter; split; assumption).
    destruct (filter _ entries); [inversion H | simpl; lia].
Qed.

(** [Engine.medications] is above 0.0 exactly when some target occurs in
    some entry. *)
Lemma medications_pos_iff (patient : Patient) (meds : list string) :
  (0 < medications patient meds)%Qc ↔
  ∃ med e, med ∈ meds ∧ e ∈ medication_entries patient ∧
           contains (strip (lower med)) (strip (lower e)) = true.
Proof.
  rewrite medications_ratio. case_bool_decide as Hlen.
  - rewrite ratio_pos_iff by exact Hlen. rewrite sum_list_pos. split.
    + intros (n & Hn & Hpos). apply list_elem_of_fmap in Hn as (med & -> & Hmed).
      apply matching_entries_pos in Hpos as (e & He & Hc).
      exists med, e. repeat split; assumption.
    + intros (med & e & Hmed & He & Hc).
      exists (matching_entries med (medication_entries patient)). split.
      * apply list_elem_of_fmap. exists med. split; [reflexivity | exact Hmed].
      * apply matching_entries_pos. exists e. split; assumption.
  - destruct meds; [|simpl in Hlen; lia]. split.
    + intros H. destruct (Qclt_not_eq _ _ H eq_refl).
    + intros (med & e & Hmed & _). inversion Hmed.
Qed.

(** X3: a medications exclusion rule excludes exactly when some listed name
    occurs, lowercased and trimmed, in some lowercased and trimmed entry
    that the loops of the evaluator range over. *)
Theorem medications_exclusion_rule
    (literal_eval : string → result (list string))
    (patient : Patient) (c : ExclusionCriterium) (meds : list string) :
  Rule.type (ex_rule c) = "medications" →
  Rule.medications (ex_rule c) = Some meds →
  (∃ reason, exclusion_step literal_eval patient c = Ok (Some reason)) ↔
  (∃ med e, med ∈ meds ∧ e ∈ medication_entries patient ∧
            contains (strip (lower med)) (strip (lower e)) = true).
Proof.
  intros Htype Hkey. rewrite <- medications_pos_iff.
  unfold exclusion_step. rewrite Htype, Hkey. simpl.
  case_bool_decide as H; split.
  - intros _. exact H.
  - intros _. eexists. reflexivity.
  - intros [reason Hr]. discriminate Hr.
  - intros H'. destruct (H H').
Qed.

(** X4: when the patient's cell decodes, the preexisting-conditions score is
    above 0.0 exactly when some lowercased, trimmed study code is among the
    decoded patient codes, and 1.0 exactly when the study list is not empty
    and every such study code is among them. *)
Theorem preexisting_conditions_shared_codes
    (literal_eval : string → result (list string))
    (patient : Patient) (study : list string) (codes : list string) :
  literal_eval (lower (strip (PatientData.icd9_codes (patient_data patient)))) = Ok codes →
  ∃ v,
    preexisting_conditions literal_eval patient study = Ok v ∧
    ((0 < v)%Qc ↔ ∃ c, c ∈ study ∧ lower (strip c) ∈ codes) ∧
    (v = 1%Qc ↔ study ≠ [] ∧ ∀ c, c ∈ study → lower (strip c) ∈ codes).
Proof.
  intros Hcodes. unfold preexisting_conditions. rewrite Hcodes. simpl.
  eexists. split; [reflexivity|].
  set (P := list_to_set codes : gset string).
  set (S := list_to_set ((λ x, lower (strip x)) <$> study) : gset string).
  assert (HS : ∀ x, x ∈ S ↔ ∃ c, c ∈ study ∧ x = lower (strip c)).
  { intros x. unfold S. rewrite elem_of_list_to_set, list_elem_of_fmap.
    split; intros (c & H1 & H2); exists c; split; assumption. }
  assert (HP : ∀ x, x ∈ P ↔ x ∈ codes).
  { intros x. unfold P. apply elem_of_list_to_set. }
  case_bool_decide as Hsize.
  - split.
    + rewrite ratio_pos_iff by exact Hsize. split.
      * intros H. apply size_pos_elem_of in H as [x Hx].
        apply elem_of_intersection in Hx as [HxP HxS].
        apply HS in HxS as (c & Hc & ->). exists c. split; [exact Hc | apply HP, HxP].
      * intros (c & Hc & Hin).
        assert (Hx : lower (strip c) ∈ P ∩ S).
        { apply elem_of_intersection. split; [apply HP, Hin | apply HS; eauto]. }
        destruct (decide (size (P ∩ S) = 0%nat)) as [E|E]; [|lia].
        apply size_empty_iff in E. set_solver.
    + rewrite ratio_one_iff by exact Hsize. split.
      * intros Heq. split.
        { intros Hnil. assert (E0 : size S = 0%nat); [|lia].
          unfold S. rewrite Hnil. apply size_empty. }
        assert (E : P ∩ S = S).
        { apply set_subseteq_size_eq; [set_solver | lia]. }
        intros c Hc. apply HP.
        assert (Hx : lower (strip c) ∈ P ∩ S) by (rewrite E; apply HS; eauto).
        set_solver.
      * intros [_ Hall]. f_equal. apply leibniz_equiv.
        apply set_equiv. intros x. rewrite elem_of_intersection. split; [tauto|].
        intros Hx. split; [|exact Hx]. apply HS in Hx as (c & Hc & ->).
        apply HP, Hall, Hc.
  - assert (E : S = ∅).
    { apply leibniz_equiv, size_empty_iff. lia. }
    split; split.
    + intros H. destruct (Qclt_not_eq _ _ H eq_refl).
    + intros (c & Hc & _).
      assert (lower (strip c) ∈ S) by (apply HS; eauto). set_solver.
    + intros H. symmetry in H. destruct (Qc_one_not_zero H).
    + intros [Hne Hall]. destruct study as [|c study]; [destruct (Hne eq_refl)|].
      assert (lower (strip c) ∈ S) by (apply HS; exists c; split; [left | reflexivity]).
      set_solver.
Qed.

(** X7: a medication name that is empty or blank is contained in every entry:
    alone in the list, it scores the number of entries that the loops range
    over. *)
Theorem blank_medication_name_matches_every_entry (patient : Patient) (med : string) :
  strip (lower med) = EmptyString →
  medications patient [med] = Qc_of_nat (length (medication_entries patient)).
Proof.
  intros Hblank.
  assert (H : matching_entries med (medication_entries patient)
              = length (medication_entries patient)).
  { unfold matching_entries. rewrite Hblank.
    induction (medication_entries patient) as [|e l IH]; [reflexivity|].
    rewrite filter_cons.
    assert (Hc : contains EmptyString (strip (lower e)) = true)
      by (destruct (strip (lower e)); reflexivity).
    rewrite decide_True by exact Hc. simpl. rewrite IH. reflexivity. }
  rewrite medications_ratio, bool_decide_eq_true_2 by (simpl; lia).
  rewrite fmap_cons, fmap_nil. cbn [sum_list sum_list_with length].
  rewrite H, Nat.add_0_r. unfold Qcdiv.
  assert (E : (/ Qc_of_nat 1)%Qc = 1%Qc) by (apply Qc_is_canon; reflexivity).
  rewrite E. apply Qcmult_1_r.
Qed.

(** X6: on medication cells that are text (what [pd.read_csv] delivers), a
    medications rule whose names have two or more characters once
    lowercased and trimmed never excludes and, as an inclusion rule, leaves
    the score as it is. *)
Theorem medications_rule_on_text_cells
    (literal_eval : string → result (list string))
    (patient : Patient) (rule : Rule.t) (meds : list string) (s1 s2 s3 : string) :
  PatientData.prescriptions (patient_data patient) = PyStr s1 →
  PatientData.prescriptions_poe (patient_data patient) = PyStr s2 →
  PatientData.prescriptions_generic (patient_data patient) = PyStr s3 →
  Rule.type rule = "medications" → Rule.medications rule = Some meds →
  Forall (λ med, (2 ≤ String.length (strip (lower med)))%nat) meds →
  exclusion_step literal_eval patient (mkExclusion rule) = Ok None ∧
  ∀ w score, inclusion_step literal_eval patient (mkInclusion rule w) score = Ok score.
Proof.
  intros H1 H2 H3 Htype Hkey Hmeds.
  pose proof (medications_csv_cells patient meds s1 s2 s3 H1 H2 H3 Hmeds) as Hzero.
  split.
  - unfold exclusion_step. simpl. rewrite Htype, Hkey. simpl. rewrite Hzero.
    reflexivity.
  - intros w score. unfold inclusion_step. simpl. rewrite Htype, Hkey. simpl.
    rewrite Hzero, Qcmult_0_l, Qcplus_0_r. reflexivity.
Qed.

(** ** Normal forms of names and codes *)

Lemma isspace_lower_ascii (c : ascii) : isspace (lower_ascii c) = isspace c.
Proof. destruct c as [[] [] [] [] [] [] [] []]; reflexivity. Qed.

Lemma lower_ascii_idem (c : ascii) : lower_ascii (lower_ascii c) = lower_ascii c.
Proof. destruct c as [[] [] [] [] [] [] [] []]; reflexivity. Qed.

Lemma lower_idem (s : string) : lower (lower s) = lower s.
Proof.
  induction s as [|c s IH]; simpl; [reflexivity|].
  rewrite lower_ascii_idem, IH. reflexivity.
Qed.

Lemma lower_lstrip (s : string) : lower (lstrip s) = lstrip (lower s).
Proof.
  induction s as [|c s IH]; simpl; [reflexivity|].
  rewrite isspace_lower_ascii. destruct (isspace c); [exact IH | reflexivity].
Qed.

Lemma lower_rstrip (s : string) : lower (rstrip s) = rstrip (lower s).
Proof.
  induction s as [|c s IH]; simpl; [reflexivity|].
  rewrite <- IH, isspace_lower_ascii.
  destruct (rstrip s) as [|d r]; simpl; [destruct (isspace c)|]; reflexivity.
Qed.

Lemma lower_strip (s : string) : lower (strip s) = strip (lower s).
Proof. unfold strip. rewrite lower_rstrip, lower_lstrip. reflexivity. Qed.

Lemma rstrip_idem (s : string) : rstrip (rstrip s) = rstrip s.
Proof.
  induction s as [|c s IH]; simpl; [reflexivity|].
  destruct (rstrip s) as [|d r] eqn:E.
  - destruct (isspace c) eqn:Hc; simpl; [reflexivity|]. rewrite Hc. reflexivity.
  - change (rstrip (String c (String d r)))
      with (match rstrip (String d r) with
            | EmptyString => if isspace c then EmptyString else String c EmptyString
            | r' => String c r'
            end).
    rewrite IH. reflexivity.
Qed.

Lemma lstrip_clean_front (s : string) : clean_front (lstrip s).
Proof.
  induction s as [|c s IH]; simpl; [exact I|].
  destruct (isspace c) eqn:E; [exact IH | exact E].
Qed.

Lemma rstrip_clean_front (s : string) : clean_front s → clean_front (rstrip s).
Proof.
  destruct s as [|c s]; simpl; [trivial|]. intros Hc.
  destruct (rstrip s); [rewrite Hc|]; exact Hc.
Qed.

Lemma lstrip_of_clean_front (s : string) : clean_front s → lstrip s = s.
Proof. destruct s as [|c s]; simpl; [reflexivity|]. intros ->. reflexivity. Qed.

Lemma strip_idem (s : string) : strip (strip s) = strip s.
Proof.
  unfold strip.
  rewrite (lstrip_of_clean_front (rstrip (lstrip s)))
    by apply rstrip_clean_front, lstrip_clean_front.
  apply rstrip_idem.
Qed.

(** The name as [Engine.medications] compares it, the code as
    [Engine.preexisting_conditions] compares it: normalising twice changes
    nothing. *)
Lemma normal_name_idem (s : string) : strip (lower (strip (lower s))) = strip (lower s).
Proof. rewrite lower_strip, strip_idem, lower_idem. reflexivity. Qed.

Lemma normal_code_idem (s : string) : lower (strip (lower (strip s))) = lower (strip s).
Proof. rewrite (lower_strip s), strip_idem, lower_strip, lower_idem. reflexivity. Qed.

(** X5: writing the names of a medications rule, or the codes of a
    preexisting-conditions rule, in lowercase and without surrounding
    blanks beforehand changes no score: the evaluators compare normal forms,
    and normalising twice is normalising once. *)
Theorem rule_parameters_are_normalised
    (literal_eval : string → result (list string))
    (patient : Patient) (meds study : list string) :
  medications patient ((λ med, strip (lower med)) <$> meds) = medications patient meds ∧
  preexisting_conditions literal_eval patient ((λ code, lower (strip code)) <$> study)
  = preexisting_conditions literal_eval patient study.
Proof.
  split.
  - rewrite !medications_ratio, length_fmap, <- list_fmap_compose.
    assert (E : (λ med, matching_entries med (medication_entries patient))
                  ∘ (λ med, strip (lower med))
                <$> meds
                = (λ med, matching_entries med (medication_entries patient)) <$> meds).
    { apply list_fmap_ext. intros i med _. simpl. unfold matching_entries.
      rewrite normal_name_idem. reflexivity. }
    rewrite E. reflexivity.
  - unfold preexisting_conditions. rewrite <- list_fmap_compose.
    assert (E : (λ x, lower (strip x)) ∘ (λ code, lower (strip code)) <$> study
                = (λ x, lower (strip x)) <$> study).
    { apply list_fmap_ext. intros i code _. simpl. apply normal_code_idem. }
    rewrite E. reflexivity.
Qed.

(** ** Bounds of the scores *)

Lemma Qc_zero_le_one : (0 ≤ 1)%Qc.
Proof. discriminate. Qed.

Lemma evaluator_value_nonneg (literal_eval : string → result (list string))
    (patient : Patient) (rule : Rule.t) (v : Qc) :
  evaluator_value literal_eval patient rule = Ok v → (0 ≤ v)%Qc.
Proof.
  unfold evaluator_value.
  destruct (String.eqb (Rule.type rule) "age").
  { intros [= <-]. destruct (age_zero_or_one patient (Rule.min rule) (Rule.max rule)) as [->| ->];
      [apply Qcle_refl | apply Qc_zero_le_one]. }
  destruct (String.eqb (Rule.type rule) "gender").
  { destruct (Rule.gender rule) as [g|]; simpl; [|discriminate]. intros [= <-].
    destruct (gender_zero_or_one patient g) as [->| ->];
      [apply Qcle_refl | apply Qc_zero_le_one]. }
  destruct (String.eqb (Rule.type rule) "medications").
  { destruct (Rule.medications rule) as [ms|]; simpl; [|discriminate]. intros [= <-].
    apply medications_nonneg. }
  destruct (String.eqb (Rule.type rule) "preexisting_conditions").
  { destruct (Rule.icd9_codes rule) as [cs|]; simpl; [|discriminate]. intros H.
    apply preexisting_conditions_bounded in H as [H _]. exact H. }
  intros [= <-]. apply Qcle_refl.
Qed.

Lemma evaluator_value_le_one (literal_eval : string → result (list string))
    (patient : Patient) (rule : Rule.t) (v : Qc) :
  Rule.type rule ≠ "medications" →
  evaluator_value literal_eval patient rule = Ok v → (v ≤ 1)%Qc.
Proof.
  intros Hmed. unfold evaluator_value.
  destruct (String.eqb (Rule.type rule) "age").
  { intros [= <-]. destruct (age_zero_or_one patient (Rule.min rule) (Rule.max rule)) as [->| ->];
      [apply Qc_zero_le_one | apply Qcle_refl]. }
  destruct (String.eqb (Rule.type rule) "gender").
  { destruct (Rule.gender rule) as [g|]; simpl; [|discriminate]. intros [= <-].
    destruct (gender_zero_or_one patient g) as [->| ->];
      [apply Qc_zero_le_one | apply Qcle_refl]. }
  destruct (String.eqb_spec (Rule.type rule) "medications") as [E|_];
    [destruct (Hmed E)|].
  destruct (String.eqb (Rule.type rule) "preexisting_conditions").
  { destruct (Rule.icd9_codes rule) as [cs|]; simpl; [|discriminate]. intros H.
    apply preexisting_conditions_bounded in H as [_ H]. exact H. }
  intros [= <-]. apply Qc_zero_le_one.
Qed.

Lemma foldl_Qcplus_le (a b : Qc) (terms bounds : list Qc) :
  (a ≤ b)%Qc → Forall2 Qcle terms bounds →
  (foldl Qcplus a terms ≤ foldl Qcplus b bounds)%Qc.
Proof.
  intros Hab H. revert a b Hab.
  induction H as [|t w terms bounds Htw _ IH]; intros a b Hab; simpl; [exact Hab|].
  apply IH. apply Qcplus_le_compat; assumption.
Qed.

Lemma foldl_Qcplus_nonneg (a : Qc) (terms : list Qc) :
  (0 ≤ a)%Qc → Forall (Qcle 0) terms → (0 ≤ foldl Qcplus a terms)%Qc.
Proof.
  intros Ha H. revert a Ha.
  induction H as [|t terms Ht _ IH]; intros a Ha; simpl; [exact Ha|].
  apply IH. rewrite <- (Qcplus_0_l 0). apply Qcplus_le_compat; assumption.
Qed.

Lemma inclusion_terms_bounds (literal_eval : string → result (list string))
    (patient : Patient) (cs : list InclusionCriterium) (terms : list Qc) :
  Forall (λ c, (0 ≤ weight c)%Qc) cs →
  inclusion_terms literal_eval patient cs = Ok terms →
  Forall (Qcle 0) terms ∧
  (Forall (λ c, Rule.type (in_rule c) ≠ "medications") cs →
   Forall2 Qcle terms (weight <$> cs)).
Proof.
  intros Hw. revert terms.
  induction Hw as [|c cs Hc _ IH]; intros terms Ht; simpl in Ht.
  - injection Ht as <-. split; constructor.
  - destruct (evaluator_value literal_eval patient (in_rule c)) as [v|e] eqn:Ev;
      simpl in Ht; [|discriminate].
    destruct (inclusion_terms literal_eval patient cs) as [rest|e]; simpl in Ht;
      [|discriminate].
    injection Ht as <-. destruct (IH rest eq_refl) as [IH0 IH1].
    pose proof (evaluator_value_nonneg _ _ _ _ Ev) as Hv0.
    split.
    + constructor; [apply Qcmult_nonneg_nonneg; assumption | exact IH0].
    + intros Hmed. apply Forall_cons in Hmed as [Hmc Hmed].
      rewrite fmap_cons. constructor; [|apply IH1, Hmed].
      rewrite <- (Qcmult_1_l (weight c)) at 2.
      apply Qcmult_le_compat_r; [|exact Hc].
      eapply evaluator_value_le_one; eassumption.
Qed.

(** X8: with non-negative weights every final score of a run is at least
    0.0, and at most the sum of the weights when no inclusion rule is of
    type medications. *)
Theorem final_score_bounds
    (literal_eval : string → result (list string))
    (self self' : Engine) (rows : list PatientData.t) (disk : Disk) (ranked : list Patient) :
  sort_patients literal_eval self rows disk = (self', Ok ranked) →
  Forall (λ c, (0 ≤ weight c)%Qc) (inclusion_criterium (rules self)) →
  ∀ patient, patient ∈ ranked →
    (0 ≤ score patient)%Qc ∧
    (Forall (λ c, Rule.type (in_rule c) ≠ "medications") (inclusion_criterium (rules self)) →
     (score patient ≤ foldl Qcplus 0%Qc (weight <$> inclusion_criterium (rules self)))%Qc).
Proof.
  intros H Hw patient Hin.
  apply sort_patients_Ok in H as (self1 & scored & Hrun & -> & _).
  apply score_patients_Ok in Hrun as (Hscored & _).
  rewrite sort_by_score_perm in Hin. apply list_elem_of_lookup in Hin as [i Hi].
  destruct (Forall2_lookup_r _ _ _ _ _ Hscored Hi)
    as (loaded & _ & sum & verdict & Hsum & _ & ->).
  unfold weighted_sum in Hsum.
  destruct (inclusion_terms literal_eval loaded (inclusion_criterium (rules self)))
    as [terms|e] eqn:Et; simpl in Hsum; [|discriminate].
  injection Hsum as <-.
  destruct (inclusion_terms_bounds _ _ _ _ Hw Et) as [H0 H1].
  assert (Hbound : (0 ≤ foldl Qcplus 0%Qc (weight <$> inclusion_criterium (rules self)))%Qc).
  { apply foldl_Qcplus_nonneg; [apply Qcle_refl|]. apply Forall_fmap.
    eapply Forall_impl; [exact Hw|]. intros c Hc. exact Hc. }
  destruct verdict as [reason|]; simpl.
  - split; [apply Qcle_refl | intros _; exact Hbound].
  - split; [apply foldl_Qcplus_nonneg; [apply Qcle_refl | exact H0]|].
    intros Hmed. apply foldl_Qcplus_le; [apply Qcle_refl | apply H1, Hmed].
Qed.

(** ** The exclusion log of a run *)

Lemma elem_of_concat {A} (x : A) (ls : list (list A)) :
  x ∈ concat ls ↔ ∃ l, x ∈ l ∧ l ∈ ls.
Proof.
  induction ls as [|l ls IH]; simpl.
  - split; [intros H; inversion H | intros (l & _ & H); inversion H].
  - rewrite elem_of_app, IH. split.
    + intros [H | (l' & H1 & H2)]; [exists l; split; [exact H | left]|].
      exists l'. split; [exact H1 | right; exact H2].
    + intros (l' & H1 & H2). apply elem_of_cons in H2 as [->|H2]; [left; exact H1|].
      right. exists l'. split; assumption.
Qed.

Lemma exclusion_loop_verdict (literal_eval : string → result (list string))
    (patient : Patient) (cs : list ExclusionCriterium)
    (verdict : option ExclusionReason) :
  exclusion_loop literal_eval patient cs = Ok verdict →
  (is_Some verdict ↔
   ∃ c, c ∈ cs ∧ violated literal_eval patient (ex_rule c) = Ok true) ∧
  (∀ reason, verdict = Some reason → reason_index reason = patient_index patient).
Proof.
  intros H. apply exclusion_loop_first in H. destruct verdict as [reason|].
  - destruct H as (before & c & after & -> & _ & Hc). split.
    + split; [|intros _; eexists; reflexivity]. intros _. exists c. split.
      * apply elem_of_app. right. left.
      * eapply exclusion_step_Some_violated, Hc.
    + intros r [= <-]. eapply exclusion_step_reason, Hc.
  - split; [|intros r Hr; discriminate Hr]. split.
    + intros [r Hr]. discriminate Hr.
    + intros (c & Hin & Hc). rewrite Forall_forall in H.
      specialize (H c Hin). apply exclusion_step_None_violated in H.
      rewrite H in Hc. discriminate Hc.
Qed.

Lemma verdict_line_index (literal_eval : string → result (list string))
    (doc : Rules) (patient : Patient) (i : nat) :
  i ∈ reason_index <$> verdict_line literal_eval doc patient → i = patient_index patient.
Proof.
  unfold verdict_line.
  destruct (exclusion_loop literal_eval patient (exclusion_criterium doc))
    as [[reason|]|e] eqn:E; simpl; try (intros H; inversion H; fail).
  intros H. apply list_elem_of_singleton in H as ->.
  apply exclusion_loop_verdict in E as [_ E]. apply E. reflexivity.
Qed.

Lemma verdict_lines_sorted (literal_eval : string → result (list string))
    (doc : Rules) (patients : list Patient) :
  StronglySorted lt (patient_index <$> patients) →
  StronglySorted lt (reason_index <$> concat (verdict_line literal_eval doc <$> patients)).
Proof.
  induction patients as [|p ps IH]; [constructor|].
  rewrite !fmap_cons. intros H. apply StronglySorted_inv in H as [Hps Hp].
  cbn [concat]. rewrite fmap_app. apply StronglySorted_app. split; [|split].
  - intros i j Hi Hj. apply verdict_line_index in Hi as ->.
    apply list_elem_of_fmap in Hj as (r & -> & Hr).
    apply elem_of_concat in Hr as (line & Hr & Hline).
    apply list_elem_of_fmap in Hline as (q & -> & Hq).
    assert (Hrq : reason_index r = patient_index q).
    { apply (verdict_line_index literal_eval doc q).
      apply list_elem_of_fmap. exists r. split; [reflexivity | exact Hr]. }
    rewrite Hrq. rewrite Forall_forall in Hp. apply Hp.
    apply list_elem_of_fmap. exists q. split; [reflexivity | exact Hq].
  - unfold verdict_line.
    destruct (exclusion_loop _ _ _) as [[reason|]|e]; simpl; repeat constructor.
  - apply IH, Hps.
Qed.

(** X9: after a run of a new engine with a log folder the lines of the
    exclusion log stand in ingestion order, at most one per patient, and a
    ranked patient has a line exactly when it violates some exclusion
    rule. *)
Theorem exclusion_log_of_a_run
    (literal_eval : string → result (list string))
    (doc : Rules) (folder : option string) (self' : Engine)
    (rows : list PatientData.t) (disk : Disk) (ranked : list Patient) :
  truthy folder = true →
  sort_patients literal_eval (Engine_init doc folder) rows disk = (self', Ok ranked) →
  ∃ lines,
    exclusion_log_file self' = Some lines ∧
    StronglySorted lt (reason_index <$> lines) ∧
    ∀ i, i ∈ reason_index <$> lines ↔
         ∃ patient c, patient ∈ ranked ∧ patient_index patient = i ∧
                      c ∈ exclusion_criterium doc ∧
                      violated literal_eval patient (ex_rule c) = Ok true.
Proof.
  intros Hfolder H.
  apply sort_patients_Ok in H as (self1 & scored & Hrun & -> & ->).
  apply score_patients_Ok in Hrun as (Hscored & _ & Hf & _ & _ & Hfile).
  unfold Engine_init in Hscored, Hf, Hfile. rewrite Hfolder in Hscored, Hf, Hfile.
  simpl in Hscored, Hf, Hfile.
  exists (concat (verdict_line literal_eval doc <$> load_patients rows)).
  split; [|split].
  - rewrite Hf, Hfolder. exact Hfile.
  - apply verdict_lines_sorted. rewrite load_patients_index. apply StronglySorted_seq.
  - intros i. split.
    + intros Hi. apply list_elem_of_fmap in Hi as (r & -> & Hr).
      apply elem_of_concat in Hr as (line & Hr & Hline).
      apply list_elem_of_fmap in Hline as (p & -> & Hp).
      apply list_elem_of_lookup in Hp as [k Hk].
      destruct (Forall2_lookup_l _ _ _ _ _ Hscored Hk)
        as (p' & Hk' & sum & verdict & _ & Hloop & ->).
      unfold verdict_line in Hr. rewrite Hloop in Hr.
      destruct verdict as [reason|]; [|inversion Hr].
      apply list_elem_of_singleton in Hr as ->.
      apply exclusion_loop_verdict in Hloop as [[Hviol _] Hidx].
      destruct Hviol as (c & Hc & Hv); [eexists; reflexivity|].
      exists (set_score p 0%Qc), c. repeat split.
      * rewrite sort_by_score_perm. eapply list_elem_of_lookup_2, Hk'.
      * symmetry. apply Hidx. reflexivity.
      * exact Hc.
      * exact Hv.
    + intros (p' & c & Hp' & <- & Hc & Hv).
      rewrite sort_by_score_perm in Hp'. apply list_elem_of_lookup in Hp' as [k Hk'].
      destruct (Forall2_lookup_r _ _ _ _ _ Hscored Hk')
        as (p & Hk & sum & verdict & _ & Hloop & ->).
      pose proof Hloop as Hloop'.
      apply exclusion_loop_verdict in Hloop as [[_ Hviol] Hidx].
      destruct Hviol as [reason ->]; [exists c; split; assumption|].
      apply list_elem_of_fmap. exists reason. split.
      * simpl. symmetry. apply Hidx. reflexivity.
      * apply elem_of_concat. exists [reason]. split; [left|].
        apply list_elem_of_fmap. exists p. split.
        { unfold verdict_line. rewrite Hloop'. reflexivity. }
        eapply list_elem_of_lookup_2, Hk.
Qed.

(** ** Exceptions in the scoring loop *)

(** A scoring loop that raises has scored the patients in front of the one
    that raised, and has raised what scoring that patient raises. *)
Lemma score_patients_Raise (literal_eval : string → result (list string))
    (self self' : Engine) (patients : list Patient) (e : exception) :
  score_patients literal_eval self patients = (self', Raise e) →
  ∃ before patient after scored,
    patients = before ++ patient :: after ∧
    score_patients literal_eval self before = (self', Ok scored) ∧
    (score_patient literal_eval self' patient).2 = Raise e.
Proof.
  revert self. induction patients as [|p ps IH]; intros self; simpl; [discriminate|].
  destruct (score_patient literal_eval self p) as [self1 [p'|e1]] eqn:E1.
  - destruct (score_patients literal_eval self1 ps) as [self2 [ps'|e2]] eqn:E2;
      [discriminate|].
    intros [= <- <-].
    destruct (IH self1 E2) as (before & patient & after & scored & -> & Hb & Hp).
    exists (p :: before), patient, after, (p' :: scored). repeat split.
    + simpl. rewrite E1, Hb. reflexivity.
    + exact Hp.
  - intros [= <- <-].
    assert (Hself : self1 = self).
    { unfold score_patient in E1.
      destruct (inclusion_loop _ _ _ _); [|injection E1 as <- _; reflexivity].
      destruct (exclusion_loop _ _ _) as [[r|]|e'];
        [discriminate | discriminate | injection E1 as <- _; reflexivity]. }
    subst self1. exists [], p, ps, []. split; [reflexivity|]. split; [reflexivity|].
    rewrite E1. reflexivity.
Qed.


(** ** Rules are read when a patient is scored *)




Lemma load_patients_length (rows : list PatientData.t) :
  length (load_patients rows) = length rows.
Proof. unfold load_patients. apply length_imap. Qed.

Lemma load_patients_lookup (rows : list PatientData.t) (i : nat) (patient : Patient) :
  load_patients rows !! i = Some patient →
  patient_index patient = i ∧ rows !! i = Some (patient_data patient).
Proof.
  unfold load_patients. rewrite list_lookup_imap.
  destruct (rows !! i) as [row|]; [|discriminate].
  intros [= <-]. split; reflexivity.
Qed.

Lemma Engine_init_fields (doc : Rules) (folder : option string) :
  rules (Engine_init doc folder) = doc ∧
  log_folder (Engine_init doc folder) = folder ∧
  patient_scores (Engine_init doc folder) = [] ∧
  scores_log (Engine_init doc folder) = None ∧
  exclusion_log_file (Engine_init doc folder) = if truthy folder then Some [] else None.
Proof. unfold Engine_init. destruct (truthy folder); repeat split. Qed.


Lemma score_patients_no_log_file (literal_eval : string → result (list string))
    (self : Engine) (patients : list Patient) :
  exclusion_log_file self = None → scores_log self = None →
  exclusion_log_file (score_patients literal_eval self patients).1 = None ∧
  scores_log (score_patients literal_eval self patients).1 = None.
Proof.
  revert self. induction patients as [|p ps IH]; intros self Hf Hl; simpl; [split; assumption|].
  assert (H1 : exclusion_log_file (score_patient literal_eval self p).1 = None ∧
               scores_log (score_patient literal_eval self p).1 = None).
  { unfold score_patient.
    destruct (inclusion_loop _ _ _ _); [|split; assumption].
    destruct (exclusion_loop _ _ _) as [[r|]|e]; simpl; rewrite ?Hf; split; by simpl. }
  destruct (score_patient literal_eval self p) as [self1 [p'|e]]; simpl in H1;
    [|exact H1].
  destruct H1 as [Hf1 Hl1]. specialize (IH self1 Hf1 Hl1).
  destruct (score_patients literal_eval self1 ps) as [self2 [ps'|e]]; exact IH.
Qed.

(** X13: an engine built without a log folder ([None] or the empty string)
    touches no file: the outcome of a run does not depend on the disk, and
    neither log is written. *)
Theorem run_without_log_folder_writes_nothing
    (literal_eval : string → result (list string))
    (doc : Rules) (folder : option string) (rows : list PatientData.t) (disk disk' : Disk) :
  folder = None ∨ folder = Some EmptyString →
  sort_patients literal_eval (Engine_init doc folder) rows disk
  = sort_patients literal_eval (Engine_init doc folder) rows disk' ∧
  exclusion_log_file (sort_patients literal_eval (Engine_init doc folder) rows disk).1 = None ∧
  scores_log (sort_patients literal_eval (Engine_init doc folder) rows disk).1 = None.
Proof.
  intros Hfolder.
  assert (Htruthy : truthy folder = false) by (destruct Hfolder as [-> | ->]; reflexivity).
  destruct (Engine_init_fields doc folder) as (_ & Hf & _ & Hl & Hfile).
  rewrite Htruthy in Hfile.
  pose proof (score_patients_no_log_file literal_eval (Engine_init doc folder)
                (load_patients rows) Hfile Hl) as [Hfile1 Hlog1].
  assert (Hfolder1 : log_folder (score_patients literal_eval (Engine_init doc folder)
                                   (load_patients rows)).1 = folder).
  { destruct (score_patients literal_eval (Engine_init doc folder) (load_patients rows))
      as [self1 [scored|e]] eqn:E; simpl.
    - apply score_patients_Ok in E as (_ & _ & H & _). rewrite H. exact Hf.
    - apply score_patients_Raise in E as (b & p & a & s & _ & E & _).
      apply score_patients_Ok in E as (_ & _ & H & _). rewrite H. exact Hf. }
  unfold sort_patients.
  destruct (score_patients literal_eval (Engine_init doc folder) (load_patients rows))
    as [self1 [scored|e]]; simpl in *; [|repeat split; assumption].
  rewrite Hfolder1, Htruthy, Hfile1. simpl. repeat split; assumption.
Qed.

(** ** One engine, one run *)

Lemma scored_as_functional (literal_eval : string → result (list string))
    (doc : Rules) (patients scored scored' : list Patient) :
  Forall2 (scored_as literal_eval doc) patients scored →
  Forall2 (scored_as literal_eval doc) patients scored' →
  scored = scored'.
Proof.
  intros H. revert scored'.
  induction H as [|p p1 ps ps1 (sum & verdict & Hs & Hv & ->) _ IH]; intros scored' H';
    [apply Forall2_nil_inv_l in H'; subst; reflexivity|].
  apply Forall2_cons_inv_l in H' as (p2 & ps2 & (sum' & verdict' & Hs' & Hv' & ->) & H' & ->).
  rewrite Hs in Hs'. rewrite Hv in Hv'. injection Hs' as <-. injection Hv' as <-.
  f_equal. apply IH, H'.
Qed.

Lemma no_exclusion_rules_no_lines (literal_eval : string → result (list string))
    (doc : Rules) (patients : list Patient) :
  exclusion_criterium doc = [] →
  concat (verdict_line literal_eval doc <$> patients) = [].
Proof.
  intros Hexcl. induction patients as [|p ps IH]; [reflexivity|].
  rewrite fmap_cons. simpl. rewrite IH. unfold verdict_line. rewrite Hexcl. reflexivity.
Qed.

(** X14: [sort_patients] does not reset [patient_scores].  A second run of
    the same engine on the same table (without exclusion rules, so that
    nothing is written through the closed handle) returns the same ranking
    and writes a score CSV that holds every entry twice. *)
Theorem second_run_doubles_the_score_log
    (literal_eval : string → result (list string))
    (doc : Rules) (folder : option string) (rows : list PatientData.t) (disk disk' : Disk)
    (self1 self2 : Engine) (ranked1 ranked2 : list Patient) :
  truthy folder = true → exclusion_criterium doc = [] →
  sort_patients literal_eval (Engine_init doc folder) rows disk = (self1, Ok ranked1) →
  sort_patients literal_eval self1 rows disk' = (self2, Ok ranked2) →
  ranked2 = ranked1 ∧
  length (patient_scores self1) = length rows ∧
  scores_log self1 = Some (patient_scores self1) ∧
  scores_log self2 = Some (patient_scores self1 ++ patient_scores self1) ∧
  exclusion_log_file self2 = exclusion_log_file self1.
Proof.
  intros Hfolder Hexcl H1 H2.
  destruct (Engine_init_fields doc folder) as (Hr0 & Hf0 & Hs0 & _ & _).
  apply sort_patients_Ok in H1 as (e1 & scored1 & Hrun1 & -> & ->).
  pose proof (score_patients_length _ _ _ _ _ Hrun1) as Hlen1.
  apply score_patients_Ok in Hrun1 as (Hsc1 & Hr1 & Hf1 & _ & Hps1 & _).
  rewrite Hr0 in Hsc1, Hr1. rewrite Hf0 in Hf1. rewrite Hs0 in Hps1. simpl in Hps1.
  rewrite Hf1, Hfolder in H2 |- *.
  apply sort_patients_Ok in H2 as (e2 & scored2 & Hrun2 & -> & ->).
  apply score_patients_Ok in Hrun2 as (Hsc2 & _ & Hf2 & _ & Hps2 & Hfile2).
  simpl in Hsc2, Hf2, Hps2, Hfile2. rewrite Hr1 in Hsc2, Hfile2.
  pose proof (scored_as_functional _ _ _ _ _ Hsc1 Hsc2) as <-.
  rewrite Hf2, Hf1, Hfolder. simpl.
  split; [reflexivity|]. split.
  { rewrite Hps1, length_fmap, Hlen1. apply load_patients_length. }
  split; [reflexivity|]. split.
  { rewrite Hps2, Hps1. reflexivity. }
  rewrite Hfile2.
  rewrite (no_exclusion_rules_no_lines _ _ _ Hexcl). destruct (exclusion_log_file e1); simpl; [rewrite app_nil_r|]; reflexivity.
Qed.

(** ** What a failing disk leaves *)

(** X15: the score CSV is written before the exclusion log is closed: when
    [to_csv] fails no score CSV is written, when [close] fails the CSV is
    written already; both runs end in [OSError]. *)
Theorem effects_of_a_failing_disk
    (literal_eval : string → result (list string))
    (doc : Rules) (folder : option string) (rows : list PatientData.t) (disk : Disk)
    (self1 : Engine) (scored : list Patient) :
  truthy folder = true →
  score_patients literal_eval (Engine_init doc folder) (load_patients rows)
  = (self1, Ok scored) →
  let out := sort_patients literal_eval (Engine_init doc folder) rows disk in
  (to_csv_fails disk = true → out.2 = Raise OSError ∧ scores_log out.1 = None) ∧
  (to_csv_fails disk = false → close_fails disk = true →
   out.2 = Raise OSError ∧ scores_log out.1 = Some (score_entry <$> scored)).
Proof.
  intros Hfolder Hrun out. subst out. unfold sort_patients. rewrite Hrun.
  destruct (Engine_init_fields doc folder) as (_ & Hf0 & Hs0 & Hl0 & Hfile0).
  apply score_patients_Ok in Hrun as (_ & _ & Hf & Hlog & Hscores & Hfile).
  rewrite Hf0 in Hf. rewrite Hl0 in Hlog. rewrite Hs0 in Hscores. simpl in Hscores.
  rewrite Hfile0, Hfolder in Hfile. simpl in Hfile.
  rewrite Hf, Hfolder. simpl.
  split.
  - intros ->. simpl. split; [reflexivity | exact Hlog].
  - intros -> ->. simpl. rewrite Hfile. simpl. rewrite Hscores. split; reflexivity.
Qed.

(** ** The ranking against the table and the score log *)

(** X16: the ranking of a new engine's run carries the rows unchanged (the
    patient with index i holds row i) and its scores are those of the
    score entries. *)
Theorem ranking_agrees_with_table_and_log
    (literal_eval : string → result (list string))
    (doc : Rules) (folder : option string) (self' : Engine)
    (rows : list PatientData.t) (disk : Disk) (ranked : list Patient) :
  sort_patients literal_eval (Engine_init doc folder) rows disk = (self', Ok ranked) →
  score_entry <$> ranked ≡ₚ patient_scores self' ∧
  ∀ patient, patient ∈ ranked →
    rows !! patient_index patient = Some (patient_data patient).
Proof.
  intros H.
  destruct (Engine_init_fields doc folder) as (Hr0 & _ & Hs0 & _ & _).
  apply sort_patients_Ok in H as (self1 & scored & Hrun & -> & ->).
  apply score_patients_Ok in Hrun as (Hscored & _ & _ & _ & Hscores & _).
  rewrite Hs0 in Hscores. simpl in Hscores. split.
  - rewrite sort_by_score_perm.
    destruct (truthy (log_folder self1)); simpl; rewrite Hscores; reflexivity.
  - intros patient Hin. rewrite sort_by_score_perm in Hin.
    apply list_elem_of_lookup in Hin as [i Hi].
    destruct (Forall2_lookup_r _ _ _ _ _ Hscored Hi)
      as (loaded & Hl & sum & verdict & _ & _ & ->).
    apply load_patients_lookup in Hl as [<- Hrow]. exact Hrow.
Qed.

(** ** Ties *)

Lemma sort_by_score_descending (l : list Patient) :
  StronglySorted (λ a b, (score b ≤ score a)%Qc) l → sort_by_score l = l.
Proof.
  induction 1 as [|x l Hl IH Hx]; [reflexivity|].
  simpl. rewrite IH. destruct l as [|y l]; [reflexivity|]. simpl.
  apply Forall_cons in Hx as [Hxy _].
  rewrite bool_decide_eq_false_2; [reflexivity|].
  apply Qcle_not_lt, Hxy.
Qed.

(** X17: when all final scores are equal the returned order is the table
    order. *)
Theorem equal_scores_keep_the_table_order
    (literal_eval : string → result (list string))
    (self self' : Engine) (rows : list PatientData.t) (disk : Disk) (ranked : list Patient) :
  sort_patients literal_eval self rows disk = (self', Ok ranked) →
  (∀ a b, a ∈ ranked → b ∈ ranked → score a = score b) →
  patient_index <$> ranked = seq 0 (length rows) ∧
  patient_data <$> ranked = rows.
Proof.
  intros H Heq.
  apply sort_patients_Ok in H as (self1 & scored & Hrun & -> & _).
  apply score_patients_Ok in Hrun as (Hscored & _).
  assert (Hsame : sort_by_score scored = scored).
  { apply sort_by_score_descending.
    assert (Hall : ∀ a b, a ∈ scored → b ∈ scored → (score b ≤ score a)%Qc).
    { intros a b Ha Hb. rewrite (Heq a b); [apply Qcle_refl | |];
        rewrite sort_by_score_perm; assumption. }
    clear Hscored Heq. induction scored as [|x l IH]; constructor.
    - apply IH. intros a b Ha Hb. apply Hall; right; assumption.
    - apply Forall_forall. intros y Hy. apply Hall; [left | right; exact Hy]. }
  rewrite Hsame. split.
  - rewrite (scored_as_index _ _ _ _ Hscored). apply load_patients_index.
  - clear Hsame Heq. apply list_eq. intros i. rewrite list_lookup_fmap.
    destruct (scored !! i) as [p'|] eqn:Hi; simpl.
    + destruct (Forall2_lookup_r _ _ _ _ _ Hscored Hi)
        as (loaded & Hl & sum & verdict & _ & _ & ->).
      apply load_patients_lookup in Hl as [_ Hrow]. symmetry. exact Hrow.
    + symmetry. apply lookup_ge_None. apply lookup_ge_None in Hi.
      rewrite <- (Forall2_length _ _ _ Hscored), load_patients_length in Hi. exact Hi.
Qed.

(** ** The application *)

Lemma StronglySorted_filter_fmap {A B} (R : relation A) (R' : relation B)
    (P : A → Prop) `{!∀ x, Decision (P x)} (f : A → B) (l : list A) :
  (∀ a b, R a b → R' (f a) (f b)) →
  StronglySorted R l → StronglySorted R' (f <$> filter P l).
Proof.
  intros HR. induction 1 as [|x l Hl IH Hx]; [constructor|].
  rewrite filter_cons. destruct (decide (P x)); [|exact IH].
  rewrite fmap_cons. constructor; [exact IH|].
  apply Forall_fmap, Forall_forall. intros y Hy.
  apply list_elem_of_filter in Hy as [_ Hy]. rewrite Forall_forall in Hx.
  apply HR, Hx, Hy.
Qed.

Lemma percentage_included_bounds (patients : list Patient) :
  (0 ≤ percentage_included patients)%Qc ∧
  (percentage_included patients ≤ Qc_of_Z 100)%Qc.
Proof.
  unfold percentage_included. case_bool_decide as Hn; [|split; discriminate].
  destruct (ratio_in_unit_interval (length (filter included patients)) (length patients))
    as [H0 H1]; [apply length_filter | exact Hn |].
  split.
  - apply Qcmult_nonneg_nonneg; [exact H0 | discriminate].
  - rewrite <- (Qcmult_1_l (Qc_of_Z 100)) at 2.
    apply Qcmult_le_compat_r; [exact H1 | discriminate].
Qed.

(** What [run_application] has done when its dialog is the success popup,
    and when it is an error box. *)
Lemma run_application_cases (build_rule : string → Translation)
    (literal_eval : string → result (list string))
    (self app' : Application.t) (rows : list PatientData.t)
    (json_fails : bool) (disk : Disk) (dialog : Dialog) (files : Files) :
  run_application build_rule literal_eval self rows json_fails disk = (app', dialog, files) →
  match dialog with
  | ShowSuccess percentage =>
      ∃ rules engine ranked,
        strip (Application.rule_text self) ≠ EmptyString ∧
        truthy (Application.patient_csv_fp self) = true ∧
        build_rule (strip (Application.rule_text self)) = Translated rules ∧
        sort_patients literal_eval
          (Engine_init rules (Some (Application.log_folder self))) rows disk
        = (engine, Ok ranked) ∧
        Application.output_text app' = output_lines ranked ∧
        percentage = percentage_included ranked ∧
        files = mkFiles (Some rules) (exclusion_log_file engine) (scores_log engine)
  | ShowError _ => app' = self
  end.
Proof.
  unfold run_application.
  destruct (String.eqb_spec (strip (Application.rule_text self)) EmptyString) as [E|N];
    [intros [= <- <- <-]; reflexivity|].
  destruct (truthy (Application.patient_csv_fp self)) eqn:Hcsv; simpl;
    [|intros [= <- <- <-]; reflexivity].
  destruct (build_rule (strip (Application.rule_text self))) as [rules|text] eqn:Hb;
    [|intros [= <- <- <-]; reflexivity].
  destruct json_fails; [intros [= <- <- <-]; reflexivity|].
  destruct (sort_patients literal_eval _ rows disk) as [engine [ranked|e]] eqn:Hrun;
    intros [= <- <- <-]; [|reflexivity].
  exists rules, engine, ranked. repeat split; assumption.
Qed.

(** X18: [run_application] replaces the output text only when the engine has
    returned: the lines are then the ranked patients with a positive score,
    in ranking order (scores descending), no patient that violates an
    exclusion rule is shown, and the percentage lies between 0 and 100;
    when the dialog is an error box the earlier output text stays. *)
Theorem run_application_display (build_rule : string → Translation)
    (literal_eval : string → result (list string))
    (self app' : Application.t) (rows : list PatientData.t)
    (json_fails : bool) (disk : Disk) (dialog : Dialog) (files : Files) :
  run_application build_rule literal_eval self rows json_fails disk = (app', dialog, files) →
  match dialog with
  | ShowError _ => Application.output_text app' = Application.output_text self
  | ShowSuccess percentage =>
      ∃ doc engine ranked,
        build_rule (strip (Application.rule_text self)) = Translated doc ∧
        sort_patients literal_eval
          (Engine_init doc (Some (Application.log_folder self))) rows disk
        = (engine, Ok ranked) ∧
        Application.output_text app' = output_lines ranked ∧
        Forall (λ line, (0 < OutputLine.score line)%Qc) (Application.output_text app') ∧
        StronglySorted (λ a b, (OutputLine.score b ≤ OutputLine.score a)%Qc)
          (Application.output_text app') ∧
        (∀ patient c, patient ∈ ranked → c ∈ exclusion_criterium doc →
           violated literal_eval patient (ex_rule c) = Ok true → ¬ included patient) ∧
        percentage = percentage_included ranked ∧
        (0 ≤ percentage)%Qc ∧ (percentage ≤ Qc_of_Z 100)%Qc
  end.
Proof.
  intros H. apply run_application_cases in H. destruct dialog as [text|percentage].
  { rewrite H. reflexivity. }
  destruct H as (doc & engine & ranked & _ & _ & Hb & Hrun & Hout & -> & _).
  exists doc, engine, ranked.
  split; [exact Hb|]. split; [exact Hrun|]. split; [exact Hout|].
  pose proof (sort_patients_ranked _ _ _ _ _ _ Hrun) as [Hsorted _].
  rewrite Hout. split; [|split; [|split; [|split; [reflexivity|]]]].
  - unfold output_lines. apply Forall_fmap, Forall_forall. intros p Hp.
    apply list_elem_of_filter in Hp as [Hp _]. exact Hp.
  - unfold output_lines.
    apply (StronglySorted_filter_fmap ranks_before); [|exact Hsorted].
    intros a b Hab. simpl. apply ranks_before_le, Hab.
  - intros patient c Hp Hc Hv Hinc.
    apply sort_patients_Ok in Hrun as (self1 & scored & Hloop & -> & _).
    apply score_patients_Ok in Hloop as (Hscored & _).
    assert (Hrules : rules (Engine_init doc (Some (Application.log_folder self))) = doc)
      by (unfold Engine_init; destruct (truthy _); reflexivity).
    rewrite Hrules in Hscored.
    rewrite sort_by_score_perm in Hp. apply list_elem_of_lookup in Hp as [i Hi].
    destruct (Forall2_lookup_r _ _ _ _ _ Hscored Hi) as (loaded & _ & Hsc).
    apply scored_as_final_score in Hsc as (sum & _ & _ & Hzero).
    unfold included in Hinc. rewrite Hzero in Hinc; [|exists c; split; assumption].
    exact (Qclt_not_eq _ _ Hinc eq_refl).
  - apply percentage_included_bounds.
Qed.

(** X19: the application always builds its engine with a log folder: when
    the folder name is not empty (it is "logs" from the constructor on), a
    run that ends in the success popup has written the three files: the
    translated rules, an exclusion log whose lines stand in ingestion
    order, and a score CSV with one row per patient in ingestion order. *)
Theorem application_run_writes_its_logs (build_rule : string → Translation)
    (literal_eval : string → result (list string))
    (self app' : Application.t) (rows : list PatientData.t)
    (json_fails : bool) (disk : Disk) (percentage : Qc) (files : Files) :
  Application.log_folder self ≠ EmptyString →
  run_application build_rule literal_eval self rows json_fails disk
  = (app', ShowSuccess percentage, files) →
  ∃ doc lines entries,
    build_rule (strip (Application.rule_text self)) = Translated doc ∧
    parsed_rules_json files = Some doc ∧
    exclusion_reasons_txt files = Some lines ∧
    StronglySorted lt (reason_index <$> lines) ∧
    patient_scores_csv files = Some entries ∧
    ScoreEntry.patient_index <$> entries = seq 0 (length rows).
Proof.
  intros Hfolder H. apply run_application_cases in H.
  destruct H as (doc & engine & ranked & _ & _ & Hb & Hrun & _ & _ & ->).
  assert (Htruthy : truthy (Some (Application.log_folder self)) = true).
  { simpl. destruct (String.eqb_spec (Application.log_folder self) EmptyString);
      [contradiction | reflexivity]. }
  destruct (Engine_init_fields doc (Some (Application.log_folder self)))
    as (Hr0 & Hf0 & Hs0 & _ & Hfile0).
  rewrite Htruthy in Hfile0.
  apply sort_patients_Ok in Hrun as (self1 & scored & Hloop & _ & ->).
  apply score_patients_Ok in Hloop as (Hscored & _ & Hf & _ & Hscores & Hfile).
  rewrite Hr0 in Hscored, Hfile. rewrite Hf0 in Hf. rewrite Hs0 in Hscores.
  rewrite Hfile0 in Hfile. simpl in Hscores, Hfile.
  rewrite Hf, Htruthy. simpl.
  exists doc, (concat (verdict_line literal_eval doc <$> load_patients rows)),
    (score_entry <$> scored).
  split; [exact Hb|]. split; [reflexivity|]. split; [exact Hfile|]. split.
  - apply verdict_lines_sorted. rewrite load_patients_index. apply StronglySorted_seq.
  - split; [rewrite Hscores; reflexivity|].
    rewrite <- list_fmap_compose, <- load_patients_index,
      <- (scored_as_index _ _ _ _ Hscored).
    reflexivity.
Qed.

Lemma application_run_writes_its_logs_witness :
  ∃ lines entries,
    exclusion_reasons_txt
      (run_application sample_build_rule list_literal sample_application trial_rows
         false (mkDisk false false)).2 = Some lines ∧
    patient_scores_csv
      (run_application sample_build_rule list_literal sample_application trial_rows
         false (mkDisk false false)).2 = Some entries ∧
    ScoreEntry.patient_index <$> entries = [0; 1; 2; 3]%nat.
Proof.
  destruct (run_application sample_build_rule list_literal sample_application trial_rows
              false (mkDisk false false)) as [[app' dialog] files] eqn:E.
  destruct dialog as [text|percentage]; [vm_compute in E; discriminate E|].
  assert (Hfolder : Application.log_folder sample_application ≠ EmptyString)
    by discriminate.
  destruct (application_run_writes_its_logs _ _ _ _ _ _ _ _ _ Hfolder E)
    as (doc & lines & entries & _ & _ & Hlines & _ & Hcsv & Hidx).
  exists lines, entries. repeat split; assumption.
Defined.

(** X20: cancelling the file dialog forgets the file selected before: the
    label shows that no file is selected and the next run stops at its
    guard, with the error box of the blank description or of the missing
    file, without translating anything or writing a file; a dialog that
    returns a path records that path. *)
Theorem cancelled_file_dialog_forgets_the_file (basename : string → string)
    (build_rule : string → Translation)
    (literal_eval : string → result (list string))
    (self : Application.t) (rows : list PatientData.t) (json_fails : bool) (disk : Disk) :
  let cancelled := select_csv_file basename self EmptyString in
  Application.patient_csv_fp cancelled = None ∧
  Application.csv_file_label cancelled = "No file selected" ∧
  Application.output_text cancelled = Application.output_text self ∧
  run_application build_rule literal_eval cancelled rows json_fails disk
  = (cancelled,
     ShowError (Text (if String.eqb (strip (Application.rule_text self)) EmptyString
                      then "Please enter a rule description."
                      else "Please select a patient CSV file.")),
     no_files) ∧
  ∀ file_path, file_path ≠ EmptyString →
    Application.patient_csv_fp (select_csv_file basename self file_path) = Some file_path ∧
    Application.csv_file_label (select_csv_file basename self file_path) = basename file_path.
Proof.
  intros cancelled. subst cancelled. unfold select_csv_file. simpl.
  repeat split.
  - unfold run_application. simpl.
    destruct (String.eqb (strip (Application.rule_text self)) EmptyString); reflexivity.
  - destruct (String.eqb_spec file_path EmptyString); [contradiction | reflexivity].
  - destruct (String.eqb_spec file_path EmptyString); [contradiction | reflexivity].
Qed.

Lemma cancelled_file_dialog_forgets_the_file_witness :
  Application.patient_csv_fp
    (select_csv_file (λ path, path) sample_application "/data/patients.csv")
  = Some "/data/patients.csv".
Proof.
  destruct (cancelled_file_dialog_forgets_the_file (λ path, path) sample_build_rule
              list_literal sample_application trial_rows false (mkDisk false false))
    as (_ & _ & _ & _ & Hpath).
  apply (Hpath "/data/patients.csv"). discriminate.
Defined.

(** ** The further properties on the samples *)

Lemma gender_exclusion_rule_witness :
  ∃ reason,
    exclusion_step list_literal (Patient_init 0 vetoed_row)
      (mkExclusion (gender_rule 7)) = Ok (Some reason).
Proof.
  destruct (gender_exclusion_rule list_literal (Patient_init 0 vetoed_row)
              (mkExclusion (gender_rule 7)) 7 eq_refl eq_refl) as (_ & _ & _ & Hother).
  apply Hother; discriminate.
Defined.

Lemma age_exclusion_rule_witness :
  ∃ reason,
    exclusion_step list_literal (Patient_init 0 vetoed_row)
      (mkExclusion (age_rule (Some 70) (Some 58))) = Ok (Some reason).
Proof.
  destruct (age_exclusion_rule list_literal (Patient_init 0 vetoed_row)
              (mkExclusion (age_rule (Some 70) (Some 58))) eq_refl) as (_ & _ & Hcrossed).
  apply (Hcrossed 70 58); [reflexivity | reflexivity | simpl; lia].
Defined.

Lemma medications_exclusion_rule_witness :
  ∃ reason,
    exclusion_step list_literal furosemide_list_patient
      (mkExclusion (medications_rule [" Furosemide"])) = Ok (Some reason).
Proof.
  apply (medications_exclusion_rule list_literal furosemide_list_patient
           (mkExclusion (medications_rule [" Furosemide"])) [" Furosemide"]
           eq_refl eq_refl).
  exists " Furosemide", "furosemide iv". repeat split.
  - left.
  - unfold medication_entries. simpl. right. left.
Defined.

Lemma preexisting_conditions_shared_codes_witness :
  ∃ v,
    preexisting_conditions list_literal plain_codes_patient ["401.9"; "250.0"] = Ok v ∧
    (0 < v)%Qc.
Proof.
  destruct (preexisting_conditions_shared_codes list_literal plain_codes_patient
              ["401.9"; "250.0"] ["401.9"; "272.4"] eq_refl) as (v & Hv & Hpos & _).
  exists v. split; [exact Hv|]. apply Hpos.
  exists "401.9". split; left.
Defined.

Lemma medications_rule_on_text_cells_witness :
  exclusion_step list_literal furosemide_csv_patient
    (mkExclusion (medications_rule ["furosemide"; "insulin"])) = Ok None.
Proof.
  apply (medications_rule_on_text_cells list_literal furosemide_csv_patient
           (medications_rule ["furosemide"; "insulin"]) ["furosemide"; "insulin"]
           _ _ _ eq_refl eq_refl eq_refl eq_refl eq_refl).
  repeat constructor; simpl; lia.
Defined.

Lemma blank_medication_name_matches_every_entry_witness :
  medications furosemide_list_patient ["  "] = Qc_of_nat 7.
Proof.
  apply (blank_medication_name_matches_every_entry furosemide_list_patient "  ").
  reflexivity.
Defined.

Lemma final_score_bounds_witness :
  ∃ self' ranked,
    sort_patients list_literal (Engine_init trial_doc (Some "logs")) trial_rows
      (mkDisk false false) = (self', Ok ranked) ∧
    Forall (λ patient, (0 ≤ score patient)%Qc) ranked.
Proof.
  destruct (sort_patients list_literal (Engine_init trial_doc (Some "logs")) trial_rows
              (mkDisk false false)) as [self' [ranked|e]] eqn:E;
    [|vm_compute in E; discriminate E].
  exists self', ranked. split; [reflexivity|].
  apply Forall_forall. intros patient Hin.
  apply (final_score_bounds _ _ _ _ _ _ E); [|exact Hin].
  repeat constructor; discriminate.
Defined.

Lemma exclusion_log_of_a_run_witness :
  ∃ self' ranked lines,
    sort_patients list_literal (Engine_init trial_doc (Some "logs")) trial_rows
      (mkDisk false false) = (self', Ok ranked) ∧
    exclusion_log_file self' = Some lines ∧
    StronglySorted lt (reason_index <$> lines).
Proof.
  destruct (sort_patients list_literal (Engine_init trial_doc (Some "logs")) trial_rows
              (mkDisk false false)) as [self' [ranked|e]] eqn:E;
    [|vm_compute in E; discriminate E].
  destruct (exclusion_log_of_a_run list_literal trial_doc (Some "logs") self' trial_rows
              (mkDisk false false) ranked eq_refl E) as (lines & Hfile & Hsorted & _).
  exists self', ranked, lines. repeat split; assumption.
Defined.




Lemma run_without_log_folder_writes_nothing_witness :
  sort_patients list_literal (Engine_init trial_doc (Some EmptyString)) trial_rows
    (mkDisk true true)
  = sort_patients list_literal (Engine_init trial_doc (Some EmptyString)) trial_rows
      (mkDisk false false).
Proof.
  apply (run_without_log_folder_writes_nothing list_literal trial_doc (Some EmptyString)
           trial_rows (mkDisk true true) (mkDisk false false)).
  right. reflexivity.
Defined.

Lemma second_run_doubles_the_score_log_witness :
  ∃ self1 ranked1 self2 ranked2,
    sort_patients list_literal (Engine_init open_doc (Some "logs")) trial_rows
      (mkDisk false false) = (self1, Ok ranked1) ∧
    sort_patients list_literal self1 trial_rows (mkDisk false false)
    = (self2, Ok ranked2) ∧
    scores_log self2 = Some (patient_scores self1 ++ patient_scores self1).
Proof.
  destruct (sort_patients list_literal (Engine_init open_doc (Some "logs")) trial_rows
              (mkDisk false false)) as [self1 [ranked1|e]] eqn:E1;
    [|vm_compute in E1; discriminate E1].
  destruct (sort_patients list_literal self1 trial_rows (mkDisk false false))
    as [self2 [ranked2|e]] eqn:E2.
  - exists self1, ranked1, self2, ranked2. split; [reflexivity|]. split; [exact E2|].
    destruct (second_run_doubles_the_score_log list_literal open_doc (Some "logs")
                trial_rows (mkDisk false false) (mkDisk false false)
                self1 self2 ranked1 ranked2 eq_refl eq_refl E1 E2)
      as (_ & _ & _ & Hlog & _).
    exact Hlog.
  - exfalso. vm_compute in E1. injection E1 as <- _.
    vm_compute in E2. discriminate E2.
Defined.

Lemma effects_of_a_failing_disk_witness :
  ∃ entries,
    scores_log (sort_patients list_literal (Engine_init trial_doc (Some "logs")) trial_rows
                  (mkDisk false true)).1 = Some entries ∧
    length entries = 4%nat.
Proof.
  destruct (score_patients list_literal (Engine_init trial_doc (Some "logs"))
              (load_patients trial_rows)) as [self1 [scored|e]] eqn:E;
    [|vm_compute in E; discriminate E].
  destruct (effects_of_a_failing_disk list_literal trial_doc (Some "logs") trial_rows
              (mkDisk false true) self1 scored eq_refl E) as [_ Hclose].
  destruct (Hclose eq_refl eq_refl) as [_ Hlog].
  exists (score_entry <$> scored). split; [exact Hlog|].
  rewrite length_fmap. apply score_patients_length in E. exact E.
Defined.

Lemma ranking_agrees_with_table_and_log_witness :
  ∃ self' ranked,
    sort_patients list_literal (Engine_init trial_doc (Some "logs")) trial_rows
      (mkDisk false false) = (self', Ok ranked) ∧
    score_entry <$> ranked ≡ₚ patient_scores self'.
Proof.
  destruct (sort_patients list_literal (Engine_init trial_doc (Some "logs")) trial_rows
              (mkDisk false false)) as [self' [ranked|e]] eqn:E;
    [|vm_compute in E; discriminate E].
  exists self', ranked. split; [reflexivity|].
  apply (ranking_agrees_with_table_and_log _ _ _ _ _ _ _ E).
Defined.

Lemma equal_scores_keep_the_table_order_witness :
  ∃ self' ranked,
    sort_patients list_literal (Engine_init empty_doc None) trial_rows
      (mkDisk false false) = (self', Ok ranked) ∧
    patient_data <$> ranked = trial_rows.
Proof.
  destruct (sort_patients list_literal (Engine_init empty_doc None) trial_rows
              (mkDisk false false)) as [self' [ranked|e]] eqn:E;
    [|vm_compute in E; discriminate E].
  exists self', ranked. split; [reflexivity|].
  apply (equal_scores_keep_the_table_order _ _ _ _ _ _ E).
  intros a b Ha Hb.
  assert (Hzero : ∀ p, p ∈ ranked → score p = 0%Qc).
  { intros p Hp. apply sort_patients_Ok in E as (self1 & scored & Hrun & -> & _).
    apply score_patients_Ok in Hrun as (Hscored & _).
    rewrite sort_by_score_perm in Hp. apply list_elem_of_lookup in Hp as [i Hi].
    destruct (Forall2_lookup_r _ _ _ _ _ Hscored Hi)
      as (loaded & _ & sum & verdict & Hsum & Hv & ->).
    injection Hsum as <-. injection Hv as <-. reflexivity. }
  rewrite (Hzero a Ha), (Hzero b Hb). reflexivity.
Defined.

Lemma run_application_display_witness :
  ∃ percentage,
    (run_application sample_build_rule list_literal sample_application trial_rows
       false (mkDisk false false)).1.2 = ShowSuccess percentage ∧
    (percentage ≤ Qc_of_Z 100)%Qc.
Proof.
  destruct (run_application sample_build_rule list_literal sample_application trial_rows
              false (mkDisk false false)) as [[app' dialog] files] eqn:E.
  destruct dialog as [text|percentage]; [vm_compute in E; discriminate E|].
  exists percentage. split; [reflexivity|].
  pose proof (run_application_display _ _ _ _ _ _ _ _ _ E) as H. simpl in H.
  destruct H as (doc & engine & ranked & _ & _ & _ & _ & _ & _ & _ & _ & Hle).
  exact Hle.
Defined.
